(** * The MLC-LLM JNI bridge ([mlc_llm_jni.cpp]) as a state machine

    The bridge keeps one engine object in the process-wide owning pointer
    [g_state] and exposes eight exported functions.  The development below
    embeds them over an explicit store: a heap of [MlcLlmState] objects
    indexed by address, the [g_state] slot, and the set of shared libraries
    that [dlopen] can load.  An exported function is a computation that may
    read and write that store, emits the lines it sends to the Android log,
    and has no result at all when the C++ would dereference or free an address
    that is not live. *)

From stdpp Require Import gmap strings list fin_maps.
From Stdlib Require Import ZArith Lia.

Local Open Scope Z_scope.

(** ** JNI scalar types *)

(** [jint] and [jlong] are two's complement integers of 32 and 64 bits,
    [jboolean] is an unsigned byte, [jchar] a UTF-16 code unit.  A [jfloat] is
    carried as its IEEE-754 binary32 bit pattern: the bridge never computes
    with one. *)
Definition jint := Z.
Definition jlong := Z.
Definition jboolean := Z.
Definition jfloat := Z.
Definition jchar := Z.

(** The contents of a (non-null) [java.lang.String]. *)
Definition jstring := list jchar.

(** A C [char] buffer, one [Z] in [0, 256) per byte. *)
Definition cstring := list Z.

(** Conversion of an unsigned value to [int], keeping the low 32 bits. *)
Definition to_jint (z : Z) : jint := (z + 2 ^ 31) mod 2 ^ 32 - 2 ^ 31.

(** Conversion of a [jboolean] to C++ [bool]. *)
Definition to_bool (b : jboolean) : bool := negb (b =? 0).

(** ** Strings across the JNI boundary *)

(** [GetStringUTFChars] hands out the string in modified UTF-8: the code unit
    0 takes two bytes, so that the only zero byte of the buffer is its
    terminator, and every other unit takes one, two or three bytes. *)
Definition utf8_unit (c : jchar) : cstring :=
  if c =? 0 then [0xC0; 0x80]
  else if c <=? 0x7F then [c]
  else if c <=? 0x7FF then
    [Z.lor 0xC0 (Z.shiftr c 6); Z.lor 0x80 (Z.land c 0x3F)]
  else
    [Z.lor 0xE0 (Z.shiftr c 12);
     Z.lor 0x80 (Z.land (Z.shiftr c 6) 0x3F);
     Z.lor 0x80 (Z.land c 0x3F)].

Definition GetStringUTFChars (s : jstring) : cstring :=
  concat (map utf8_unit s) ++ [0].

(** [strlen]: the number of bytes before the first zero byte. *)
Fixpoint strlen (buf : cstring) : Z :=
  match buf with
  | [] => 0
  | c :: rest => if c =? 0 then 0 else 1 + strlen rest
  end.

(** The code units of an ASCII literal. *)
Fixpoint jstring_of (s : string) : jstring :=
  match s with
  | EmptyString => []
  | String a rest => Z.of_nat (Ascii.nat_of_ascii a) :: jstring_of rest
  end.

(** ** Enumerations

    [Backend] and [KvCacheType] are scoped enumerations over [int]; the
    bridge fills them with [static_cast] from a [jint], so a field of either
    type can hold any [int] and is kept as its underlying value. *)
Module Backend.
Definition t := Z.
Definition CPU : t := 0.
Definition VULKAN_GPU : t := 1.
Definition OPENCL_GPU : t := 2.
Definition NPU_HEXAGON : t := 3.
Definition NPU_MEDIATEK : t := 4.
Definition METAL_GPU : t := 5.
Definition static_cast (v : jint) : t := v.
End Backend.

Module KvCacheType.
Definition t := Z.
Definition F32 : t := 0.
Definition F16 : t := 1.
Definition Q8_0 : t := 2.
Definition Q4_0 : t := 3.
Definition static_cast (v : jint) : t := v.
End KvCacheType.

(** ** The engine state holder *)

(** A non-null address. *)
Definition ptr := positive.

Record MlcLlmState := mkState {
  chatModule : option ptr;
  backend : Backend.t;
  gpuLayers : Z;
  contextSize : Z;
  batchSize : Z;
  threads : Z;
  useFlashAttention : bool;
  kvCacheType : KvCacheType.t;
  isGenerating : bool;
  shouldStop : bool;
  pendingToken : cstring
}.

(** The default member initialisers of the struct. *)
Definition MlcLlmState_default : MlcLlmState :=
  {| chatModule := None;
     backend := Backend.CPU;
     gpuLayers := 0;
     contextSize := 4096;
     batchSize := 512;
     threads := 4;
     useFlashAttention := true;
     kvCacheType := KvCacheType.F16;
     isGenerating := false;
     shouldStop := false;
     pendingToken := [] |}.

Definition set_chatModule (v : option ptr) (s : MlcLlmState) :=
  mkState v (backend s) (gpuLayers s) (contextSize s) (batchSize s) (threads s)
          (useFlashAttention s) (kvCacheType s) (isGenerating s) (shouldStop s)
          (pendingToken s).
Definition set_backend (v : Backend.t) (s : MlcLlmState) :=
  mkState (chatModule s) v (gpuLayers s) (contextSize s) (batchSize s) (threads s)
          (useFlashAttention s) (kvCacheType s) (isGenerating s) (shouldStop s)
          (pendingToken s).
Definition set_gpuLayers (v : Z) (s : MlcLlmState) :=
  mkState (chatModule s) (backend s) v (contextSize s) (batchSize s) (threads s)
          (useFlashAttention s) (kvCacheType s) (isGenerating s) (shouldStop s)
          (pendingToken s).
Definition set_contextSize (v : Z) (s : MlcLlmState) :=
  mkState (chatModule s) (backend s) (gpuLayers s) v (batchSize s) (threads s)
          (useFlashAttention s) (kvCacheType s) (isGenerating s) (shouldStop s)
          (pendingToken s).
Definition set_batchSize (v : Z) (s : MlcLlmState) :=
  mkState (chatModule s) (backend s) (gpuLayers s) (contextSize s) v (threads s)
          (useFlashAttention s) (kvCacheType s) (isGenerating s) (shouldStop s)
          (pendingToken s).
Definition set_threads (v : Z) (s : MlcLlmState) :=
  mkState (chatModule s) (backend s) (gpuLayers s) (contextSize s) (batchSize s) v
          (useFlashAttention s) (kvCacheType s) (isGenerating s) (shouldStop s)
          (pendingToken s).
Definition set_useFlashAttention (v : bool) (s : MlcLlmState) :=
  mkState (chatModule s) (backend s) (gpuLayers s) (contextSize s) (batchSize s)
          (threads s) v (kvCacheType s) (isGenerating s) (shouldStop s)
          (pendingToken s).
Definition set_kvCacheType (v : KvCacheType.t) (s : MlcLlmState) :=
  mkState (chatModule s) (backend s) (gpuLayers s) (contextSize s) (batchSize s)
          (threads s) (useFlashAttention s) v (isGenerating s) (shouldStop s)
          (pendingToken s).
Definition set_isGenerating (v : bool) (s : MlcLlmState) :=
  mkState (chatModule s) (backend s) (gpuLayers s) (contextSize s) (batchSize s)
          (threads s) (useFlashAttention s) (kvCacheType s) v (shouldStop s)
          (pendingToken s).
Definition set_shouldStop (v : bool) (s : MlcLlmState) :=
  mkState (chatModule s) (backend s) (gpuLayers s) (contextSize s) (batchSize s)
          (threads s) (useFlashAttention s) (kvCacheType s) (isGenerating s) v
          (pendingToken s).

(** The destructor: it drops the chat module pointer when there is one. *)
Definition MlcLlmState_dtor (s : MlcLlmState) : MlcLlmState :=
  match chatModule s with
  | Some _ => set_chatModule None s
  | None => s
  end.

(** ** The store and the log *)

Record World := mkWorld {
  loadable : string -> bool;        (* the libraries [dlopen] finds *)
  heap : gmap ptr MlcLlmState;      (* the live [MlcLlmState] objects *)
  g_state : option ptr              (* [static std::unique_ptr<MlcLlmState>] *)
}.

Inductive log_level := INFO | ERROR | DEBUG.

Inductive log_arg :=
| arg_str (s : cstring)
| arg_int (n : Z).

(** One call of [__android_log_print]: priority, format and arguments. *)
Inductive event :=
| Log (lvl : log_level) (fmt : string) (args : list log_arg).

Definition LOGI := Log INFO.
Definition LOGE := Log ERROR.
Definition LOGD := Log DEBUG.

(** [operator new] for [MlcLlmState]: it picks an address that holds no live
    object.  Which one is left to the allocator. *)
Class Allocator := {
  operator_new : gmap ptr MlcLlmState -> ptr;
  operator_new_fresh : forall h, h !! operator_new h = None
}.

(** An allocator that always moves past the live addresses. *)
Program Instance bump_allocator : Allocator :=
  {| operator_new h := fresh (dom h) |}.
Next Obligation.
  intros h. apply not_elem_of_dom. apply is_fresh.
Qed.

(** ** Computations

    A computation runs on a world and yields a value, the next world and the
    log lines it wrote, or nothing when the C++ has no defined behaviour. *)
Definition M (A : Type) : Type := World -> option (A * World * list event).

Definition ret {A} (a : A) : M A := fun w => Some (a, w, []).

Definition bind {A B} (m : M A) (k : A -> M B) : M B :=
  fun w =>
    match m w with
    | None => None
    | Some (a, w1, l1) =>
        match k a w1 with
        | None => None
        | Some (b, w2, l2) => Some (b, w2, l1 ++ l2)
        end
    end.

Notation "'do' x <- m ; k" := (bind m (fun x => k))
  (at level 10, x name, m at level 100, k at level 200).
Notation "m ;; k" := (bind m (fun _ => k))
  (at level 100, k at level 200, right associativity).

Definition undefined {A} : M A := fun _ => None.

Definition log (e : event) : M unit := fun w => Some (tt, w, [e]).

(** [dlopen] followed, when it succeeded, by [dlclose]. *)
Definition probe (lib : string) : M bool :=
  fun w => Some (loadable w lib, w, []).

(** [g_state.get()]. *)
Definition g_state_get : M (option ptr) := fun w => Some (g_state w, w, []).

(** [g_state->]: the held address; a null [unique_ptr] must not be
    dereferenced. *)
Definition g_state_arrow : M ptr :=
  do o <- g_state_get;
  match o with
  | Some p => ret p
  | None => undefined
  end.

Definition load (p : ptr) : M MlcLlmState :=
  fun w =>
    match heap w !! p with
    | Some s => Some (s, w, [])
    | None => None
    end.

Definition store (p : ptr) (s : MlcLlmState) : M unit :=
  fun w =>
    match heap w !! p with
    | Some _ => Some (tt, mkWorld (loadable w) (<[p := s]> (heap w)) (g_state w), [])
    | None => None
    end.

(** [g_state->field = v]. *)
Definition assign_field (f : MlcLlmState -> MlcLlmState) : M unit :=
  do p <- g_state_arrow;
  do s <- load p;
  store p (f s).

(** [delete p]: run the destructor, then give the memory back. *)
Definition delete_ptr (p : ptr) : M unit :=
  do s <- load p;
  store p (MlcLlmState_dtor s) ;;
  fun w => Some (tt, mkWorld (loadable w) (delete p (heap w)) (g_state w), []).

(** [g_state.reset(q)]: the slot takes [q], then the object it held before is
    deleted. *)
Definition g_state_reset (q : option ptr) : M unit :=
  do old <- g_state_get;
  (fun w => Some (tt, mkWorld (loadable w) (heap w) q, [])) ;;
  match old with
  | Some p => delete_ptr p
  | None => ret tt
  end.

Section Bridge.
Context `{Allocator}.

(** [std::make_unique<MlcLlmState>()]. *)
Definition make_unique : M ptr :=
  fun w =>
    let a := operator_new (heap w) in
    Some (a, mkWorld (loadable w) (<[a := MlcLlmState_default]> (heap w)) (g_state w), []).

(** [reinterpret_cast<jlong>] of a pointer. *)
Definition reinterpret_cast (o : option ptr) : jlong :=
  match o with
  | Some p => Z.pos p
  | None => 0
  end.

(** *** The exported functions

    Each is named after its Kotlin method; the JNI symbol adds the prefix
    [Java_com_google_ai_edge_gallery_llm_engine_MlcLlmEngine_].  The [env]
    and [thiz] arguments are used for string access only and are left out. *)

Definition nativeCheckVulkan : M bool :=
  do vulkanLib <- probe "libvulkan.so";
  if vulkanLib then
    log (LOGI "Vulkan is available" []) ;;
    ret true
  else
    log (LOGI "Vulkan is not available" []) ;;
    ret false.

Definition nativeCheckOpenCL : M bool :=
  do openclLib <- probe "libOpenCL.so";
  if openclLib then
    log (LOGI "OpenCL is available" []) ;;
    ret true
  else
    do openclLib <- probe "/system/vendor/lib64/libOpenCL.so";
    if openclLib then
      log (LOGI "OpenCL is available (vendor path)" []) ;;
      ret true
    else
      log (LOGI "OpenCL is not available" []) ;;
      ret false.

Definition nativeInit (modelPath : jstring)
    (backend gpuLayers contextSize batchSize threads : jint)
    (useFlashAttention : jboolean) (kvCacheType : jint) : M jlong :=
  let path := GetStringUTFChars modelPath in
  log (LOGI "Initializing MLC-LLM engine with model: %s" [arg_str path]) ;;
  log (LOGI "Backend: %d, GPU layers: %d, Context: %d, Batch: %d, Threads: %d"
         [arg_int backend; arg_int gpuLayers; arg_int contextSize;
          arg_int batchSize; arg_int threads]) ;;
  do fresh_state <- make_unique;
  g_state_reset (Some fresh_state) ;;
  assign_field (set_backend (Backend.static_cast backend)) ;;
  assign_field (set_gpuLayers gpuLayers) ;;
  assign_field (set_contextSize contextSize) ;;
  assign_field (set_batchSize batchSize) ;;
  assign_field (set_threads threads) ;;
  assign_field (set_useFlashAttention (to_bool useFlashAttention)) ;;
  assign_field (set_kvCacheType (KvCacheType.static_cast kvCacheType)) ;;
  log (LOGI "MLC-LLM engine initialized successfully" []) ;;
  do p <- g_state_get;
  ret (reinterpret_cast p).

Definition nativePrompt (handle : jlong) (prompt : jstring) : M jint :=
  do g <- g_state_get;
  match g with
  | None =>
      log (LOGE "Engine not initialized" []) ;;
      ret (-1)
  | Some _ =>
      let promptStr := GetStringUTFChars prompt in
      log (LOGD "Processing prompt: %.50s..." [arg_str promptStr]) ;;
      let tokenCount := to_jint (strlen promptStr / 4) in
      log (LOGD "Prompt processed: %d tokens" [arg_int tokenCount]) ;;
      ret tokenCount
  end.

Definition nativeGenerate (handle : jlong) (maxTokens : jint)
    (temperature topP : jfloat) (topK : jint) (repeatPenalty : jfloat)
    (seed : jlong) : M (option jstring) :=
  do g <- g_state_get;
  match g with
  | None =>
      log (LOGE "Engine not initialized" []) ;;
      ret None
  | Some p =>
      do s <- load p;
      if shouldStop s then
        log (LOGD "Generation stopped by user" []) ;;
        ret None
      else
        assign_field (set_isGenerating true) ;;
        assign_field (set_isGenerating false) ;;
        ret None
  end.

Definition nativeStopGeneration (handle : jlong) : M unit :=
  do g <- g_state_get;
  match g with
  | Some _ =>
      assign_field (set_shouldStop true) ;;
      log (LOGI "Generation stop requested" [])
  | None => ret tt
  end.

Definition nativeResetContext (handle : jlong) : M unit :=
  do g <- g_state_get;
  match g with
  | Some _ =>
      assign_field (set_shouldStop false) ;;
      log (LOGI "Context reset" [])
  | None => ret tt
  end.

Definition nativeRelease (handle : jlong) : M unit :=
  do g <- g_state_get;
  match g with
  | Some _ =>
      g_state_reset None ;;
      log (LOGI "Engine released" [])
  | None => ret tt
  end.

(** *** Sequences of calls

    What the host application can do to the bridge: any of the exported
    functions, with any arguments, in any order. *)

Inductive call :=
| CheckVulkan
| CheckOpenCL
| Init (modelPath : jstring)
    (backend gpuLayers contextSize batchSize threads : jint)
    (useFlashAttention : jboolean) (kvCacheType : jint)
| Prompt (handle : jlong) (prompt : jstring)
| Generate (handle : jlong) (maxTokens : jint) (temperature topP : jfloat)
    (topK : jint) (repeatPenalty : jfloat) (seed : jlong)
| StopGeneration (handle : jlong)
| ResetContext (handle : jlong)
| Release (handle : jlong).

Inductive retval :=
| r_void
| r_boolean (b : bool)
| r_int (n : jint)
| r_long (n : jlong)
| r_string (s : option jstring).

Definition exec (c : call) : M retval :=
  match c with
  | CheckVulkan => do b <- nativeCheckVulkan; ret (r_boolean b)
  | CheckOpenCL => do b <- nativeCheckOpenCL; ret (r_boolean b)
  | Init path be gl cs bs th fa kv =>
      do h <- nativeInit path be gl cs bs th fa kv; ret (r_long h)
  | Prompt h p => do n <- nativePrompt h p; ret (r_int n)
  | Generate h mt te tp tk rp sd =>
      do t <- nativeGenerate h mt te tp tk rp sd; ret (r_string t)
  | StopGeneration h => nativeStopGeneration h ;; ret r_void
  | ResetContext h => nativeResetContext h ;; ret r_void
  | Release h => nativeRelease h ;; ret r_void
  end.

Fixpoint run (cs : list call) : M (list retval) :=
  match cs with
  | [] => ret []
  | c :: rest =>
      do r <- exec c;
      do rs <- run rest;
      ret (r :: rs)
  end.

(** [n] calls of [nativeGenerate] in a row with one request, as the
    caller's token loop makes them; the tokens are collected in order. *)
Fixpoint generate_calls (n : nat) (handle : jlong) (maxTokens : jint)
    (temperature topP : jfloat) (topK : jint) (repeatPenalty : jfloat)
    (seed : jlong) : M (list (option jstring)) :=
  match n with
  | O => ret []
  | S k =>
      do t <- nativeGenerate handle maxTokens temperature topP topK
                repeatPenalty seed;
      do ts <- generate_calls k handle maxTokens temperature topP topK
                 repeatPenalty seed;
      ret (t :: ts)
  end.

End Bridge.

(** ** Observations on a world *)

(** The engine object the slot points to, when there is a live one. *)
Definition session (w : World) : option MlcLlmState :=
  match g_state w with
  | Some p => heap w !! p
  | None => None
  end.

(** The stop flag of the current session. *)
Definition cancelRequested (w : World) : bool :=
  match session w with
  | Some s => shouldStop s
  | None => false
  end.

(** The generation flag of the current session. *)
Definition generating (w : World) : bool :=
  match session w with
  | Some s => isGenerating s
  | None => false
  end.

(** The slot is the only owner and nothing else is allocated: the heap holds
    the object of the slot and no other. *)
Definition owned (w : World) : Prop :=
  match g_state w with
  | Some p => exists s, heap w = {[p := s]}
  | None => heap w = ∅
  end.

(** The world of a process that has just loaded the library. *)
Definition startup (libs : string -> bool) : World := mkWorld libs ∅ None.

(** A call that is neither a reset, a release nor an open. *)
Definition keeps_session (c : call) : bool :=
  match c with
  | Init _ _ _ _ _ _ _ _ | ResetContext _ | Release _ => false
  | _ => true
  end.

(** The engine object right after [nativeInit] has filled it in. *)
Definition configured (backend gpuLayers contextSize batchSize threads : jint)
    (useFlashAttention : jboolean) (kvCacheType : jint) : MlcLlmState :=
  {| chatModule := None;
     backend := backend;
     gpuLayers := gpuLayers;
     contextSize := contextSize;
     batchSize := batchSize;
     threads := threads;
     useFlashAttention := to_bool useFlashAttention;
     kvCacheType := kvCacheType;
     isGenerating := false;
     shouldStop := false;
     pendingToken := [] |}.

(** The heap once the object of the slot, if any, has been deleted. *)
Definition released_heap (w : World) : gmap ptr MlcLlmState :=
  match g_state w with
  | Some p => delete p (heap w)
  | None => heap w
  end.

(** The slot is null or holds the address of a live object. *)
Definition slot_valid (w : World) : bool :=
  match g_state w with
  | Some p => match heap w !! p with Some _ => true | None => false end
  | None => true
  end.

(** Writing [s] at [p]. *)
Definition upd (w : World) (p : ptr) (s : MlcLlmState) : World :=
  mkWorld (loadable w) (<[p := s]> (heap w)) (g_state w).

(** ** The bridge as its callers see it

    The host groups the arguments of [nativeInit] into an engine
    configuration and those of [nativeGenerate] into a generation request. *)

Record EngineConfiguration := {
  cfg_modelPath : jstring;
  cfg_backend : jint;
  cfg_gpuLayers : jint;
  cfg_contextSize : jint;
  cfg_batchSize : jint;
  cfg_threads : jint;
  cfg_useFlashAttention : jboolean;
  cfg_kvCacheType : jint
}.

Record GenerationRequest := {
  req_maxTokens : jint;
  req_temperature : jfloat;
  req_topP : jfloat;
  req_topK : jint;
  req_repeatPenalty : jfloat;
  req_seed : jlong
}.

(** The value a computation returns, when it returns. *)
Definition value {A} (o : option (A * World * list event)) : option A :=
  match o with
  | Some (a, _, _) => Some a
  | None => None
  end.

(** The same call made with another handle. *)
Definition with_handle (h : jlong) (c : call) : call :=
  match c with
  | Prompt _ p => Prompt h p
  | Generate _ mt te tp tk rp sd => Generate h mt te tp tk rp sd
  | StopGeneration _ => StopGeneration h
  | ResetContext _ => ResetContext h
  | Release _ => Release h
  | CheckVulkan | CheckOpenCL | Init _ _ _ _ _ _ _ _ => c
  end.

Section Sessions.
Context `{Allocator}.

Definition open (c : EngineConfiguration) : M jlong :=
  nativeInit (cfg_modelPath c) (cfg_backend c) (cfg_gpuLayers c)
    (cfg_contextSize c) (cfg_batchSize c) (cfg_threads c)
    (cfg_useFlashAttention c) (cfg_kvCacheType c).

Definition generateNext (handle : jlong) (r : GenerationRequest)
  : M (option jstring) :=
  nativeGenerate handle (req_maxTokens r) (req_temperature r) (req_topP r)
    (req_topK r) (req_repeatPenalty r) (req_seed r).

(** The engine object [open c] leaves in the slot. *)
Definition opened (c : EngineConfiguration) : MlcLlmState :=
  configured (cfg_backend c) (cfg_gpuLayers c) (cfg_contextSize c)
    (cfg_batchSize c) (cfg_threads c) (cfg_useFlashAttention c)
    (cfg_kvCacheType c).

(** The log of an opening. *)
Definition open_log (c : EngineConfiguration) : list event :=
  [LOGI "Initializing MLC-LLM engine with model: %s"
     [arg_str (GetStringUTFChars (cfg_modelPath c))];
   LOGI "Backend: %d, GPU layers: %d, Context: %d, Batch: %d, Threads: %d"
     [arg_int (cfg_backend c); arg_int (cfg_gpuLayers c);
      arg_int (cfg_contextSize c); arg_int (cfg_batchSize c);
      arg_int (cfg_threads c)];
   LOGI "MLC-LLM engine initialized successfully" []].

(** The world an opening leaves. *)
Definition open_world (c : EngineConfiguration) (w : World) : World :=
  mkWorld (loadable w)
    (<[operator_new (heap w) := opened c]> (released_heap w))
    (Some (operator_new (heap w))).

(** One session from its opening to its [n]-th generation step; every call
    after the first is made with the handle the opening returned. *)
Definition session_tokens (c : EngineConfiguration) (prompt : jstring)
    (r : GenerationRequest) (n : nat) : M (list (option jstring)) :=
  do handle <- open c;
  nativePrompt handle prompt ;;
  generate_calls n handle (req_maxTokens r) (req_temperature r) (req_topP r)
    (req_topK r) (req_repeatPenalty r) (req_seed r).

(** Open, ingest, three generation steps, stop, one step, reset, one step.
    The result is the token count, the three tokens before the stop, the
    token after the stop and the token after the reset. *)
Definition scenario (c : EngineConfiguration) (prompt : jstring)
    (r : GenerationRequest)
  : M (jint * list (option jstring) * option jstring * option jstring) :=
  do handle <- open c;
  do count <- nativePrompt handle prompt;
  do t1 <- generateNext handle r;
  do t2 <- generateNext handle r;
  do t3 <- generateNext handle r;
  nativeStopGeneration handle ;;
  do t4 <- generateNext handle r;
  nativeResetContext handle ;;
  do t5 <- generateNext handle r;
  ret (count, [t1; t2; t3], t4, t5).

(** Two openings in a row; the handles of both are returned. *)
Definition reopen (c1 c2 : EngineConfiguration) : M (jlong * jlong) :=
  do h1 <- open c1;
  do h2 <- open c2;
  ret (h1, h2).

End Sessions.

(** ** Kinds of calls and what a session carries *)

(** A capability probe. *)
Definition is_probe (c : call) : bool :=
  match c with
  | CheckVulkan | CheckOpenCL => true
  | _ => false
  end.

(** Any call but an opening. *)
Definition not_init (c : call) : bool :=
  match c with
  | Init _ _ _ _ _ _ _ _ => false
  | _ => true
  end.

(** A call that neither replaces nor frees the object of the slot. *)
Definition keeps_slot (c : call) : bool :=
  match c with
  | Init _ _ _ _ _ _ _ _ | Release _ => false
  | _ => true
  end.

(** An engine object with its two generation flags masked: what is left is
    the chat module pointer, the seven configuration fields and the token
    buffer. *)
Definition configuration_of (s : MlcLlmState) : MlcLlmState :=
  set_isGenerating false (set_shouldStop false s).

(** The session, if any, has no chat module attached and an empty token
    buffer. *)
Definition unloaded (w : World) : bool :=
  match session w with
  | Some s =>
      match chatModule s, pendingToken s with
      | None, [] => true
      | _, _ => false
      end
  | None => true
  end.

(** ** Sample inputs *)

Definition no_libraries : string -> bool := fun _ => false.

(** A session at address 1 as [nativeInit] leaves it with the defaults. *)
Definition idle_world : World :=
  mkWorld no_libraries {[1%positive := MlcLlmState_default]} (Some 1%positive).

(** The same session after [nativeStopGeneration]. *)
Definition stopped_world : World :=
  mkWorld no_libraries {[1%positive := set_shouldStop true MlcLlmState_default]}
    (Some 1%positive).

Definition cpu_config : EngineConfiguration :=
  {| cfg_modelPath := jstring_of "/data/local/tmp/model";
     cfg_backend := Backend.CPU;
     cfg_gpuLayers := 0;
     cfg_contextSize := 4096;
     cfg_batchSize := 512;
     cfg_threads := 4;
     cfg_useFlashAttention := 1;
     cfg_kvCacheType := KvCacheType.F16 |}.

(** No path, a GPU backend and the largest context an [int] can ask for. *)
Definition vulkan_config : EngineConfiguration :=
  {| cfg_modelPath := jstring_of "";
     cfg_backend := Backend.VULKAN_GPU;
     cfg_gpuLayers := 32;
     cfg_contextSize := 2147483647;
     cfg_batchSize := 512;
     cfg_threads := 4;
     cfg_useFlashAttention := 1;
     cfg_kvCacheType := KvCacheType.F16 |}.

(** Temperature 0.8 and top-p 0.95 as binary32, top-k 40, penalty 1.1. *)
Definition sample_request : GenerationRequest :=
  {| req_maxTokens := 128;
     req_temperature := 0x3F4CCCCD;
     req_topP := 0x3F733333;
     req_topK := 40;
     req_repeatPenalty := 0x3F8CCCCD;
     req_seed := 42 |}.

(** * Properties *)

(** ** Strings *)

Lemma utf8_unit_nonzero c : Forall (fun b => b <> 0) (utf8_unit c).
Proof.
  unfold utf8_unit.
  destruct (c =? 0) eqn:E0; [repeat constructor; lia |].
  apply Z.eqb_neq in E0.
  destruct (c <=? 0x7F); [repeat constructor; done |].
  destruct (c <=? 0x7FF); repeat constructor;
    intros [E _]%Z.lor_eq_0_iff; discriminate E.
Qed.

Lemma utf8_unit_length c : (1 <= length (utf8_unit c) <= 3)%nat.
Proof.
  unfold utf8_unit.
  destruct (c =? 0); [cbn; lia |].
  destruct (c <=? 0x7F); [cbn; lia |].
  destruct (c <=? 0x7FF); cbn; lia.
Qed.

Lemma strlen_app l r :
  Forall (fun b => b <> 0) l -> strlen (l ++ r) = Z.of_nat (length l) + strlen r.
Proof.
  induction 1 as [| b l Hb _ IH]; [done |].
  cbn [app strlen length]. apply Z.eqb_neq in Hb. rewrite Hb, IH. lia.
Qed.

Lemma encoding_nonzero s : Forall (fun b => b <> 0) (concat (map utf8_unit s)).
Proof.
  induction s as [| c s IH]; cbn; [constructor |].
  apply Forall_app. split; [apply utf8_unit_nonzero | exact IH].
Qed.

Lemma encoding_length s :
  (length s <= length (concat (map utf8_unit s)) <= 3 * length s)%nat.
Proof.
  induction s as [| c s IH]; cbn; [lia |].
  rewrite length_app. pose proof (utf8_unit_length c). lia.
Qed.

(** The terminator is the first zero byte of the buffer. *)
Lemma strlen_GetStringUTFChars s :
  strlen (GetStringUTFChars s) = Z.of_nat (length (concat (map utf8_unit s))).
Proof.
  unfold GetStringUTFChars. rewrite strlen_app by apply encoding_nonzero.
  cbn. lia.
Qed.

Lemma strlen_bounds s :
  Z.of_nat (length s) <= strlen (GetStringUTFChars s) <= 3 * Z.of_nat (length s).
Proof.
  rewrite strlen_GetStringUTFChars. pose proof (encoding_length s). lia.
Qed.

Lemma to_jint_small z : 0 <= z < 2 ^ 31 -> to_jint z = z.
Proof. intros Hz. unfold to_jint. rewrite Z.mod_small; lia. Qed.

Lemma tokenCount_bounds s :
  Z.of_nat (length s) <= 2 ^ 31 - 1 ->
  to_jint (strlen (GetStringUTFChars s) / 4) = strlen (GetStringUTFChars s) / 4
  /\ 0 <= strlen (GetStringUTFChars s) / 4 <= Z.of_nat (length s).
Proof.
  intros Hlen. pose proof (strlen_bounds s) as Hb.
  assert (0 <= strlen (GetStringUTFChars s) / 4 <= Z.of_nat (length s)).
  { split; [apply Z.div_pos; lia |].
    apply Z.div_le_upper_bound; lia. }
  split; [apply to_jint_small; lia | done].
Qed.

Section Steps.
Context `{Allocator}.

Ltac unfold_m :=
  unfold nativeCheckVulkan, nativeCheckOpenCL, nativeInit, nativePrompt,
    nativeGenerate, nativeStopGeneration, nativeResetContext, nativeRelease,
    assign_field, g_state_reset, delete_ptr, g_state_arrow, g_state_get,
    make_unique, probe, log, load, store, undefined, bind, ret.

(** ** One call at a time *)

Lemma assign_field_live f w p s :
  g_state w = Some p -> heap w !! p = Some s ->
  assign_field f w = Some (tt, upd w p (f s), []).
Proof.
  intros Hg Hp. unfold_m. rewrite Hg. cbn. rewrite Hp. cbn. rewrite Hp.
  reflexivity.
Qed.

Lemma upd_upd w p s1 s2 : upd (upd w p s1) p s2 = upd w p s2.
Proof. unfold upd. cbn. by rewrite insert_insert_eq. Qed.

Lemma upd_same w p s : heap w !! p = Some s -> upd w p s = w.
Proof.
  intros Hp. destruct w as [ld hp gs]. unfold upd. cbn in *.
  by rewrite insert_id.
Qed.

Lemma heap_upd w p s : heap (upd w p s) !! p = Some s.
Proof. unfold upd. cbn. apply lookup_insert_eq. Qed.

Lemma session_upd w p s : g_state w = Some p -> session (upd w p s) = Some s.
Proof. intros Hg. unfold session. cbn. rewrite Hg. apply lookup_insert_eq. Qed.

Lemma delete_ptr_live w p s :
  heap w !! p = Some s ->
  delete_ptr p w =
  Some (tt, mkWorld (loadable w) (delete p (heap w)) (g_state w), []).
Proof.
  intros Hp. unfold_m. rewrite Hp. cbn. rewrite Hp. cbn.
  by rewrite delete_insert_eq.
Qed.

Lemma g_state_reset_null q w :
  g_state w = None ->
  g_state_reset q w = Some (tt, mkWorld (loadable w) (heap w) q, []).
Proof. intros Hg. unfold_m. by rewrite Hg. Qed.

Lemma g_state_reset_live q w p s :
  g_state w = Some p -> heap w !! p = Some s ->
  g_state_reset q w = Some (tt, mkWorld (loadable w) (delete p (heap w)) q, []).
Proof.
  intros Hg Hp. unfold g_state_reset, bind at 1, g_state_get. rewrite Hg.
  unfold bind at 1.
  by rewrite (delete_ptr_live (mkWorld (loadable w) (heap w) q) p s Hp).
Qed.

Lemma nativeCheckVulkan_run w :
  exists l, nativeCheckVulkan w = Some (loadable w "libvulkan.so", w, l).
Proof. unfold_m. destruct (loadable w "libvulkan.so"); cbn; eauto. Qed.

Lemma nativeCheckOpenCL_run w :
  exists l,
    nativeCheckOpenCL w =
    Some (loadable w "libOpenCL.so"
          || loadable w "/system/vendor/lib64/libOpenCL.so", w, l).
Proof.
  unfold_m. destruct (loadable w "libOpenCL.so"); cbn; eauto.
  destruct (loadable w "/system/vendor/lib64/libOpenCL.so"); cbn; eauto.
Qed.

Lemma nativePrompt_closed handle prompt w :
  g_state w = None ->
  nativePrompt handle prompt w = Some (-1, w, [LOGE "Engine not initialized" []]).
Proof. intros Hg. unfold_m. by rewrite Hg. Qed.

Lemma nativePrompt_open handle prompt w p :
  g_state w = Some p ->
  nativePrompt handle prompt w =
  Some (to_jint (strlen (GetStringUTFChars prompt) / 4), w,
        [LOGD "Processing prompt: %.50s..." [arg_str (GetStringUTFChars prompt)];
         LOGD "Prompt processed: %d tokens"
           [arg_int (to_jint (strlen (GetStringUTFChars prompt) / 4))]]).
Proof. intros Hg. unfold_m. by rewrite Hg. Qed.

Lemma nativeGenerate_closed handle mt te tp tk rp sd w :
  g_state w = None ->
  nativeGenerate handle mt te tp tk rp sd w =
  Some (None, w, [LOGE "Engine not initialized" []]).
Proof. intros Hg. unfold_m. by rewrite Hg. Qed.

Lemma nativeGenerate_stopped handle mt te tp tk rp sd w p s :
  g_state w = Some p -> heap w !! p = Some s -> shouldStop s = true ->
  nativeGenerate handle mt te tp tk rp sd w =
  Some (None, w, [LOGD "Generation stopped by user" []]).
Proof. intros Hg Hp Hs. unfold_m. rewrite Hg. cbn. rewrite Hp, Hs. done. Qed.

Lemma nativeGenerate_step handle mt te tp tk rp sd w p s :
  g_state w = Some p -> heap w !! p = Some s -> shouldStop s = false ->
  nativeGenerate handle mt te tp tk rp sd w =
  Some (None, upd w p (set_isGenerating false s), []).
Proof.
  intros Hg Hp Hs. unfold nativeGenerate, bind at 1, g_state_get.
  rewrite Hg. unfold bind at 1, load. rewrite Hp, Hs.
  unfold bind at 1. rewrite (assign_field_live _ w p s Hg Hp).
  unfold bind at 1.
  rewrite (assign_field_live _ (upd w p (set_isGenerating true s)) p
             (set_isGenerating true s) Hg (heap_upd _ _ _)).
  by rewrite upd_upd.
Qed.

Lemma nativeStopGeneration_closed handle w :
  g_state w = None -> nativeStopGeneration handle w = Some (tt, w, []).
Proof. intros Hg. unfold_m. by rewrite Hg. Qed.

Lemma nativeStopGeneration_open handle w p s :
  g_state w = Some p -> heap w !! p = Some s ->
  nativeStopGeneration handle w =
  Some (tt, upd w p (set_shouldStop true s), [LOGI "Generation stop requested" []]).
Proof.
  intros Hg Hp. unfold nativeStopGeneration, bind at 1, g_state_get.
  rewrite Hg. unfold bind at 1. by rewrite (assign_field_live _ w p s Hg Hp).
Qed.

Lemma nativeResetContext_closed handle w :
  g_state w = None -> nativeResetContext handle w = Some (tt, w, []).
Proof. intros Hg. unfold_m. by rewrite Hg. Qed.

Lemma nativeResetContext_open handle w p s :
  g_state w = Some p -> heap w !! p = Some s ->
  nativeResetContext handle w =
  Some (tt, upd w p (set_shouldStop false s), [LOGI "Context reset" []]).
Proof.
  intros Hg Hp. unfold nativeResetContext, bind at 1, g_state_get.
  rewrite Hg. unfold bind at 1. by rewrite (assign_field_live _ w p s Hg Hp).
Qed.

Lemma nativeRelease_closed handle w :
  g_state w = None -> nativeRelease handle w = Some (tt, w, []).
Proof. intros Hg. unfold_m. by rewrite Hg. Qed.

Lemma nativeRelease_open handle w p s :
  g_state w = Some p -> heap w !! p = Some s ->
  nativeRelease handle w =
  Some (tt, mkWorld (loadable w) (delete p (heap w)) None,
        [LOGI "Engine released" []]).
Proof.
  intros Hg Hp. unfold nativeRelease, bind at 1, g_state_get. rewrite Hg.
  unfold bind at 1. by rewrite (g_state_reset_live None w p s Hg Hp).
Qed.

Lemma slot_valid_live w p :
  g_state w = Some p -> slot_valid w = true -> exists s, heap w !! p = Some s.
Proof.
  unfold slot_valid. intros ->. destruct (heap w !! p); [eauto | done].
Qed.

Lemma nativeInit_run path be gl cs bs th fa kv w :
  slot_valid w = true ->
  nativeInit path be gl cs bs th fa kv w =
  Some (Z.pos (operator_new (heap w)),
        mkWorld (loadable w)
          (<[operator_new (heap w) := configured be gl cs bs th fa kv]>
             (released_heap w))
          (Some (operator_new (heap w))),
        [LOGI "Initializing MLC-LLM engine with model: %s"
           [arg_str (GetStringUTFChars path)];
         LOGI "Backend: %d, GPU layers: %d, Context: %d, Batch: %d, Threads: %d"
           [arg_int be; arg_int gl; arg_int cs; arg_int bs; arg_int th];
         LOGI "MLC-LLM engine initialized successfully" []]).
Proof.
  intros Hv.
  pose proof (operator_new_fresh (heap w)) as Hfresh.
  set (a := operator_new (heap w)) in *.
  assert (Hreset : g_state_reset (Some a)
            (mkWorld (loadable w) (<[a := MlcLlmState_default]> (heap w)) (g_state w))
          = Some (tt, mkWorld (loadable w)
                        (<[a := MlcLlmState_default]> (released_heap w)) (Some a), [])).
  { unfold released_heap. destruct (g_state w) as [p|] eqn:Hg.
    - destruct (slot_valid_live _ _ Hg Hv) as [s Hp].
      assert (p <> a) by (intros ->; congruence).
      erewrite g_state_reset_live; [| reflexivity | cbn; by rewrite lookup_insert_ne].
      cbn. by rewrite delete_insert_ne.
    - by rewrite g_state_reset_null. }
  unfold nativeInit.
  do 2 (unfold bind at 1, log).
  unfold bind at 1, make_unique. fold a.
  unfold bind at 1. rewrite Hreset.
  repeat (unfold bind at 1;
          erewrite assign_field_live; [| reflexivity | apply heap_upd || apply lookup_insert_eq];
          rewrite ?upd_upd).
  unfold bind at 1, log. unfold bind at 1, g_state_get, ret. cbn.
  unfold upd. cbn. rewrite insert_insert_eq. reflexivity.
Qed.

(** ** What every call preserves *)

Lemma slot_valid_upd w p s :
  g_state w = Some p -> slot_valid (upd w p s) = true.
Proof.
  intros Hg. unfold slot_valid, upd. cbn. rewrite Hg.
  by rewrite lookup_insert_eq.
Qed.

Lemma owned_upd w p s : g_state w = Some p -> owned w -> owned (upd w p s).
Proof.
  unfold owned, upd. cbn. intros ->. intros [s0 ->].
  exists s. apply insert_singleton_eq.
Qed.

Lemma owned_released_heap w : owned w -> released_heap w = ∅.
Proof.
  unfold owned, released_heap. destruct (g_state w); [| done].
  intros [s ->]. apply delete_singleton_eq.
Qed.

Lemma owned_slot_valid w : owned w -> slot_valid w = true.
Proof.
  unfold owned, slot_valid. destruct (g_state w); [| done].
  intros [s ->]. by rewrite lookup_singleton_eq.
Qed.

Lemma generating_upd w p s :
  g_state w = Some p -> generating (upd w p s) = isGenerating s.
Proof. intros Hg. unfold generating. by rewrite (session_upd _ _ _ Hg). Qed.

Lemma generating_live w p s :
  g_state w = Some p -> heap w !! p = Some s -> generating w = isGenerating s.
Proof. intros Hg Hp. unfold generating, session. by rewrite Hg, Hp. Qed.

Lemma exec_step c w :
  slot_valid w = true ->
  exists r w' l,
    exec c w = Some (r, w', l) /\ slot_valid w' = true
    /\ (owned w -> owned w') /\ (generating w = false -> generating w' = false).
Proof.
  intros Hv.
  destruct c as [| | path be gl cs bs th fa kv | h pr | h mt te tp tk rp sd
                 | h | h | h]; unfold exec, bind at 1.
  - destruct (nativeCheckVulkan_run w) as [l ->]. cbn. eauto 10.
  - destruct (nativeCheckOpenCL_run w) as [l ->]. cbn. eauto 10.
  - rewrite (nativeInit_run _ _ _ _ _ _ _ _ _ Hv). cbn.
    do 3 eexists. split; [reflexivity |]. split; [| split].
    + unfold slot_valid. cbn. by rewrite lookup_insert_eq.
    + intros Ho. unfold owned. cbn. rewrite (owned_released_heap _ Ho).
      eexists. apply insert_empty.
    + intros _. unfold generating, session. cbn. by rewrite lookup_insert_eq.
  - destruct (g_state w) as [p|] eqn:Hg.
    + rewrite (nativePrompt_open _ _ _ _ Hg). cbn. eauto 10.
    + rewrite (nativePrompt_closed _ _ _ Hg). cbn. eauto 10.
  - destruct (g_state w) as [p|] eqn:Hg.
    + destruct (slot_valid_live _ _ Hg Hv) as [s Hp]. destruct (shouldStop s) eqn:Hs.
      * rewrite (nativeGenerate_stopped _ _ _ _ _ _ _ _ _ _ Hg Hp Hs). cbn.
        eauto 10.
      * rewrite (nativeGenerate_step _ _ _ _ _ _ _ _ _ _ Hg Hp Hs). cbn.
        do 3 eexists. split; [reflexivity |].
        split; [by apply slot_valid_upd |].
        split; [by apply owned_upd |]. intros _. by rewrite generating_upd.
    + rewrite (nativeGenerate_closed _ _ _ _ _ _ _ _ Hg). cbn. eauto 10.
  - destruct (g_state w) as [p|] eqn:Hg.
    + destruct (slot_valid_live _ _ Hg Hv) as [s Hp].
      rewrite (nativeStopGeneration_open _ _ _ _ Hg Hp). cbn.
      do 3 eexists. split; [reflexivity |].
      split; [by apply slot_valid_upd |].
      split; [by apply owned_upd |]. intros Hn. rewrite generating_upd by done.
      cbn. by rewrite <- (generating_live _ _ _ Hg Hp).
    + rewrite (nativeStopGeneration_closed _ _ Hg). cbn. eauto 10.
  - destruct (g_state w) as [p|] eqn:Hg.
    + destruct (slot_valid_live _ _ Hg Hv) as [s Hp].
      rewrite (nativeResetContext_open _ _ _ _ Hg Hp). cbn.
      do 3 eexists. split; [reflexivity |].
      split; [by apply slot_valid_upd |].
      split; [by apply owned_upd |]. intros Hn. rewrite generating_upd by done.
      cbn. by rewrite <- (generating_live _ _ _ Hg Hp).
    + rewrite (nativeResetContext_closed _ _ Hg). cbn. eauto 10.
  - destruct (g_state w) as [p|] eqn:Hg.
    + destruct (slot_valid_live _ _ Hg Hv) as [s Hp].
      rewrite (nativeRelease_open _ _ _ _ Hg Hp). cbn.
      do 3 eexists. split; [reflexivity |]. split; [done |]. split.
      * unfold owned. cbn. rewrite Hg. intros [s' ->].
        apply delete_singleton_eq.
      * done.
    + rewrite (nativeRelease_closed _ _ Hg). cbn. eauto 10.
Qed.

Lemma run_steps cs : forall w,
  slot_valid w = true ->
  exists rs w' l,
    run cs w = Some (rs, w', l) /\ slot_valid w' = true
    /\ (owned w -> owned w') /\ (generating w = false -> generating w' = false).
Proof.
  induction cs as [| c cs IH]; intros w Hv.
  - cbn. unfold ret. eauto 10.
  - destruct (exec_step c w Hv) as (r & w1 & l1 & Hc & Hv1 & Ho1 & Hn1).
    destruct (IH w1 Hv1) as (rs & w2 & l2 & Hr & Hv2 & Ho2 & Hn2).
    cbn. unfold bind at 1. rewrite Hc. unfold bind at 1. rewrite Hr.
    cbn. unfold ret. do 3 eexists. split; [reflexivity |]. auto.
Qed.

End Steps.

(** ** Whole sessions *)

Section SessionRuns.
Context `{Allocator}.

Lemma set_isGenerating_idle s :
  isGenerating s = false -> set_isGenerating false s = s.
Proof. destruct s. cbn. by intros ->. Qed.

Lemma set_shouldStop_undo s :
  shouldStop s = false -> set_shouldStop false (set_shouldStop true s) = s.
Proof. destruct s. cbn. by intros ->. Qed.

(** A generation step on an idle session: the flag goes up and comes down,
    and the world is what it was. *)
Lemma nativeGenerate_idle handle mt te tp tk rp sd w p s :
  g_state w = Some p -> heap w !! p = Some s ->
  shouldStop s = false -> isGenerating s = false ->
  nativeGenerate handle mt te tp tk rp sd w = Some (None, w, []).
Proof.
  intros Hg Hp Hs Hi.
  rewrite (nativeGenerate_step _ _ _ _ _ _ _ _ _ _ Hg Hp Hs).
  by rewrite set_isGenerating_idle, upd_same.
Qed.

Lemma generate_calls_idle n handle mt te tp tk rp sd w p s :
  g_state w = Some p -> heap w !! p = Some s ->
  shouldStop s = false -> isGenerating s = false ->
  generate_calls n handle mt te tp tk rp sd w = Some (replicate n None, w, []).
Proof.
  intros Hg Hp Hs Hi. induction n as [| n IH]; [done |].
  cbn [generate_calls]. unfold bind at 1.
  rewrite (nativeGenerate_idle _ _ _ _ _ _ _ _ _ _ Hg Hp Hs Hi).
  unfold bind at 1. by rewrite IH.
Qed.

Lemma open_run c w :
  slot_valid w = true ->
  open c w = Some (Z.pos (operator_new (heap w)), open_world c w, open_log c).
Proof. intros Hv. unfold open. by rewrite nativeInit_run. Qed.

Lemma open_world_session c w :
  heap (open_world c w) !! operator_new (heap w) = Some (opened c).
Proof. unfold open_world. cbn. apply lookup_insert_eq. Qed.

Lemma session_tokens_run c prompt r n w :
  slot_valid w = true ->
  value (session_tokens c prompt r n w) = Some (replicate n None).
Proof.
  intros Hv. unfold session_tokens, bind at 1. rewrite (open_run c w Hv).
  unfold bind at 1.
  rewrite (nativePrompt_open _ _ (open_world c w) (operator_new (heap w)) eq_refl).
  by rewrite (generate_calls_idle n _ _ _ _ _ _ _ (open_world c w) _ (opened c)
                eq_refl (open_world_session c w) eq_refl eq_refl).
Qed.

Lemma scenario_run c prompt r w :
  slot_valid w = true ->
  scenario c prompt r w
  = Some ((to_jint (strlen (GetStringUTFChars prompt) / 4),
           [None; None; None], None, None),
          open_world c w,
          open_log c ++
          [LOGD "Processing prompt: %.50s..." [arg_str (GetStringUTFChars prompt)];
           LOGD "Prompt processed: %d tokens"
             [arg_int (to_jint (strlen (GetStringUTFChars prompt) / 4))];
           LOGI "Generation stop requested" [];
           LOGD "Generation stopped by user" [];
           LOGI "Context reset" []]).
Proof.
  intros Hv. unfold scenario, bind at 1. rewrite (open_run c w Hv).
  pose proof (open_world_session c w) as Hp.
  assert (Hg : g_state (open_world c w) = Some (operator_new (heap w))) by done.
  set (h := Z.pos (operator_new (heap w))).
  set (a := operator_new (heap w)) in *.
  set (w1 := open_world c w) in *. clearbody w1.
  pose proof (nativeGenerate_idle h (req_maxTokens r) (req_temperature r)
                (req_topP r) (req_topK r) (req_repeatPenalty r) (req_seed r)
                w1 a (opened c) Hg Hp eq_refl eq_refl) as Hgen.
  fold (generateNext h r) in Hgen.
  unfold bind at 1. rewrite (nativePrompt_open h prompt w1 a Hg).
  do 3 (unfold bind at 1; rewrite Hgen).
  unfold bind at 1. rewrite (nativeStopGeneration_open h w1 a (opened c) Hg Hp).
  unfold bind at 1. unfold generateNext at 1.
  rewrite (nativeGenerate_stopped h _ _ _ _ _ _
             (upd w1 a (set_shouldStop true (opened c))) a
             (set_shouldStop true (opened c)) Hg (heap_upd _ _ _) eq_refl).
  unfold bind at 1.
  rewrite (nativeResetContext_open h
             (upd w1 a (set_shouldStop true (opened c))) a
             (set_shouldStop true (opened c)) Hg (heap_upd _ _ _)).
  rewrite upd_upd, (set_shouldStop_undo (opened c) eq_refl), (upd_same _ _ _ Hp).
  unfold bind at 1. rewrite Hgen. reflexivity.
Qed.

Lemma open_world_valid c w : slot_valid (open_world c w) = true.
Proof. unfold slot_valid. cbn. by rewrite lookup_insert_eq. Qed.

(** No exported function looks at the handle it is given. *)
Lemma exec_ignores_handle h h' k w :
  exec (with_handle h k) w = exec (with_handle h' k) w.
Proof. by destruct k. Qed.

Lemma cancelRequested_live w :
  cancelRequested w = true ->
  exists p s, g_state w = Some p /\ heap w !! p = Some s /\ shouldStop s = true.
Proof.
  unfold cancelRequested, session.
  destruct (g_state w) as [p|]; [| done].
  destruct (heap w !! p) as [s|] eqn:Hp; [| done]. eauto.
Qed.

Lemma exec_keeps_stop k w :
  cancelRequested w = true -> keeps_session k = true ->
  exists r w' l, exec k w = Some (r, w', l) /\ cancelRequested w' = true.
Proof.
  intros Hc Hk. destruct (cancelRequested_live w Hc) as (p & s & Hg & Hp & Hs).
  destruct k as [| | path be gl cs bs th fa kv | h pr | h mt te tp tk rp sd
                 | h | h | h]; try discriminate Hk; unfold exec, bind at 1.
  - destruct (nativeCheckVulkan_run w) as [l ->]. cbn. eauto.
  - destruct (nativeCheckOpenCL_run w) as [l ->]. cbn. eauto.
  - rewrite (nativePrompt_open _ _ _ _ Hg). cbn. eauto.
  - rewrite (nativeGenerate_stopped _ _ _ _ _ _ _ _ _ _ Hg Hp Hs). cbn. eauto.
  - rewrite (nativeStopGeneration_open _ _ _ _ Hg Hp). cbn.
    do 3 eexists. split; [reflexivity |].
    unfold cancelRequested. by rewrite (session_upd _ _ _ Hg).
Qed.

End SessionRuns.

(** * The claims *)

(** ** Cancellation *)

(** C1. When the stop flag of the session is set, [nativeGenerate] returns
    null at once: the world it leaves is the world it found, so no field of
    the engine object was written and no counter moved, and the only thing
    it did was to log that generation was stopped. *)
Theorem nativeGenerate_cancelled handle maxTokens temperature topP topK
    repeatPenalty seed w :
  cancelRequested w = true ->
  nativeGenerate handle maxTokens temperature topP topK repeatPenalty seed w
  = Some (None, w, [LOGD "Generation stopped by user" []]).
Proof.
  unfold cancelRequested, session. intros Hc.
  destruct (g_state w) as [p|] eqn:Hg; [| done].
  destruct (heap w !! p) as [s|] eqn:Hp; [| done].
  by apply (nativeGenerate_stopped _ _ _ _ _ _ _ _ p s).
Qed.

Lemma nativeGenerate_cancelled_witness :
  cancelRequested stopped_world = true
  /\ nativeGenerate 1 128 0x3F4CCCCD 0x3F733333 40 0x3F8CCCCD 42 stopped_world
     = Some (None, stopped_world, [LOGD "Generation stopped by user" []]).
Proof.
  split; [reflexivity |]. apply nativeGenerate_cancelled. reflexivity.
Defined.

(** ** Prompt ingestion *)

(** C6. With no session open, [nativePrompt] reports the missing engine: it
    returns -1, logs the error and leaves the world as it was. *)
Theorem nativePrompt_not_initialized handle prompt w :
  g_state w = None ->
  nativePrompt handle prompt w
  = Some (-1, w, [LOGE "Engine not initialized" []]).
Proof. apply nativePrompt_closed. Qed.

Lemma nativePrompt_not_initialized_witness :
  g_state (startup no_libraries) = None
  /\ nativePrompt 0 (jstring_of "Hello world") (startup no_libraries)
     = Some (-1, startup no_libraries, [LOGE "Engine not initialized" []]).
Proof.
  split; [reflexivity |]. apply nativePrompt_not_initialized. reflexivity.
Defined.

(** C4, as stated, fails: the two-character prompt "Hi" is not empty, and a
    session is open, yet the count returned is 0. *)
Lemma nativePrompt_short_prompt_zero :
  jstring_of "Hi" <> []
  /\ g_state idle_world <> None
  /\ value (nativePrompt 1 (jstring_of "Hi") idle_world) = Some 0.
Proof. split; [done |]. split; [done |]. vm_compute. reflexivity. Qed.

(** C4, amended. With a session open, [nativePrompt] returns a quarter
    (rounded down) of the byte length of the prompt in modified UTF-8, and
    changes nothing.  That count is never negative, never more than the
    length of the prompt, and positive exactly when the prompt takes four
    bytes or more. *)
Theorem nativePrompt_count handle prompt w :
  g_state w <> None ->
  Z.of_nat (length prompt) <= 2 ^ 31 - 1 ->
  exists l,
    nativePrompt handle prompt w
    = Some (strlen (GetStringUTFChars prompt) / 4, w, l)
    /\ 0 <= strlen (GetStringUTFChars prompt) / 4 <= Z.of_nat (length prompt)
    /\ (0 < strlen (GetStringUTFChars prompt) / 4
        <-> 4 <= strlen (GetStringUTFChars prompt)).
Proof.
  intros Hg Hlen. destruct (g_state w) as [p|] eqn:Hp; [| done].
  destruct (tokenCount_bounds prompt Hlen) as [Hj Hb].
  rewrite (nativePrompt_open _ _ _ _ Hp), Hj.
  eexists. split; [reflexivity |]. split; [exact Hb |].
  pose proof (strlen_bounds prompt) as Hs.
  split; intros Hq.
  - destruct (Z.lt_ge_cases (strlen (GetStringUTFChars prompt)) 4) as [Hlt|]; [| lia].
    rewrite Z.div_small in Hq; lia.
  - apply Z.div_str_pos. lia.
Qed.

Lemma nativePrompt_count_witness :
  exists l,
    nativePrompt 1 (jstring_of "Hello world") idle_world
    = Some (strlen (GetStringUTFChars (jstring_of "Hello world")) / 4, idle_world, l)
    /\ 0 <= strlen (GetStringUTFChars (jstring_of "Hello world")) / 4
         <= Z.of_nat (length (jstring_of "Hello world"))
    /\ (0 < strlen (GetStringUTFChars (jstring_of "Hello world")) / 4
        <-> 4 <= strlen (GetStringUTFChars (jstring_of "Hello world"))).
Proof.
  apply nativePrompt_count.
  - simpl. discriminate.
  - vm_compute. discriminate.
Defined.

(** ** Release *)

(** C7. Releasing is idempotent.  From any world whose slot is null or holds
    a live object, the first [nativeRelease] succeeds and empties the slot;
    the second finds it empty, frees nothing, logs nothing and leaves the
    world as the first left it, so that two calls in a row amount to one.
    When the slot owned the only object, nothing stays allocated. *)
Theorem nativeRelease_idempotent h1 h2 w :
  slot_valid w = true ->
  exists w' l,
    nativeRelease h1 w = Some (tt, w', l)
    /\ nativeRelease h2 w' = Some (tt, w', [])
    /\ (nativeRelease h1 ;; nativeRelease h2) w = nativeRelease h1 w
    /\ g_state w' = None
    /\ (owned w -> heap w' = ∅).
Proof.
  intros Hv. destruct (g_state w) as [p|] eqn:Hg.
  - destruct (slot_valid_live _ _ Hg Hv) as [s Hp].
    set (w' := mkWorld (loadable w) (delete p (heap w)) None).
    assert (H2 : nativeRelease h2 w' = Some (tt, w', [])).
    { by apply nativeRelease_closed. }
    exists w', [LOGI "Engine released" []].
    split; [by apply (nativeRelease_open _ _ _ s) |].
    split; [exact H2 |].
    split; [| split; [done |]].
    + unfold bind. rewrite (nativeRelease_open _ _ _ s Hg Hp). fold w'.
      by rewrite H2.
    + unfold owned. rewrite Hg. intros [s' Hh]. cbn. rewrite Hh.
      apply delete_singleton_eq.
  - exists w, []. rewrite (nativeRelease_closed h1 w Hg).
    split; [done |]. split; [by apply nativeRelease_closed |].
    split; [| split; [done |]].
    + unfold bind. rewrite (nativeRelease_closed h1 w Hg).
      by rewrite (nativeRelease_closed h2 w Hg).
    + unfold owned. by rewrite Hg.
Qed.

Lemma nativeRelease_idempotent_witness :
  slot_valid idle_world = true
  /\ exists w' l,
       nativeRelease 1 idle_world = Some (tt, w', l)
       /\ nativeRelease 1 w' = Some (tt, w', [])
       /\ (nativeRelease 1 ;; nativeRelease 1) idle_world
          = nativeRelease 1 idle_world
       /\ g_state w' = None
       /\ (owned idle_world -> heap w' = ∅).
Proof.
  split; [reflexivity |]. apply nativeRelease_idempotent. reflexivity.
Defined.

(** ** Opening *)

(** C3, as stated, fails: on a device where neither the Vulkan nor the OpenCL
    loader can be loaded, opening with an empty model path, the Vulkan backend
    and a context of 2^31-1 tokens returns a non-null handle and leaves a
    session in the slot. *)
Lemma open_succeeds_without_backend :
  value (nativeCheckVulkan (startup no_libraries)) = Some false
  /\ value (nativeCheckOpenCL (startup no_libraries)) = Some false
  /\ cfg_modelPath vulkan_config = []
  /\ exists h w' l,
       open vulkan_config (startup no_libraries) = Some (h, w', l)
       /\ h <> 0
       /\ session w' = Some (opened vulkan_config).
Proof.
  split; [vm_compute; reflexivity |].
  split; [vm_compute; reflexivity |].
  split; [reflexivity |].
  do 3 eexists. split; [by apply open_run |]. split; [done |].
  unfold session. cbn. apply lookup_insert_eq.
Qed.

(** C3, amended. [nativeInit] has no failure path: it neither opens the model
    path nor probes the backend nor checks the sizes.  For every
    configuration it returns a non-null handle, the address of a fresh engine
    object that carries the configuration with both flags clear; the object
    the slot held before has been deleted. *)
Theorem open_always_succeeds `{Allocator} c w :
  slot_valid w = true ->
  exists a w' l,
    open c w = Some (Z.pos a, w', l)
    /\ Z.pos a <> 0
    /\ g_state w' = Some a
    /\ session w' = Some (opened c)
    /\ generating w' = false
    /\ cancelRequested w' = false
    /\ heap w' = <[a := opened c]> (released_heap w).
Proof.
  intros Hv. exists (operator_new (heap w)), (open_world c w), (open_log c).
  split; [by apply open_run |]. split; [done |]. split; [done |].
  assert (Hs : session (open_world c w) = Some (opened c)).
  { unfold session. cbn. apply lookup_insert_eq. }
  split; [exact Hs |]. unfold generating, cancelRequested. by rewrite Hs.
Qed.

Lemma open_always_succeeds_witness :
  slot_valid idle_world = true
  /\ exists a w' l,
       open vulkan_config idle_world = Some (Z.pos a, w', l)
       /\ Z.pos a <> 0
       /\ g_state w' = Some a
       /\ session w' = Some (opened vulkan_config)
       /\ generating w' = false
       /\ cancelRequested w' = false
       /\ heap w' = <[a := opened vulkan_config]> (released_heap idle_world).
Proof.
  split; [reflexivity |]. apply open_always_succeeds. reflexivity.
Defined.

(** C8, as stated, fails: after two openings the handles differ, and a stop
    request made with the first, stale handle sets the stop flag of the second
    session. *)
Lemma stale_stop_reaches_new_session :
  exists h1 h2 w2 l,
    reopen cpu_config vulkan_config (startup no_libraries) = Some ((h1, h2), w2, l)
    /\ h1 <> h2
    /\ cancelRequested w2 = false
    /\ exists w3 l3,
         nativeStopGeneration h1 w2 = Some (tt, w3, l3)
         /\ cancelRequested w3 = true.
Proof.
  exists 1, 2.
  destruct (reopen cpu_config vulkan_config (startup no_libraries))
    as [[[hs w2] l]|] eqn:E; vm_compute in E; [| discriminate E].
  injection E as <- <- <-.
  do 2 eexists. split; [reflexivity |]. split; [done |].
  split; [vm_compute; reflexivity |].
  do 2 eexists. split; vm_compute; reflexivity.
Qed.

(** C8, amended. A second opening supersedes the first: it returns another
    handle, the object of the first session is no longer allocated, and the
    slot holds the second session.  The exported functions never look at
    their handle, so a call made with the stale handle is defined and does
    exactly what the same call does with the current handle: it acts on the
    second session. *)
Theorem stale_handle_acts_on_current `{Allocator} c1 c2 w :
  slot_valid w = true ->
  exists a1 a2 w2 l,
    reopen c1 c2 w = Some ((Z.pos a1, Z.pos a2), w2, l)
    /\ a1 <> a2
    /\ heap w2 !! a1 = None
    /\ g_state w2 = Some a2
    /\ session w2 = Some (opened c2)
    /\ forall k,
         exec (with_handle (Z.pos a1) k) w2 = exec (with_handle (Z.pos a2) k) w2
         /\ is_Some (exec (with_handle (Z.pos a1) k) w2).
Proof.
  intros Hv.
  set (w1 := open_world c1 w).
  pose proof (open_world_valid c1 w) as Hv1. fold w1 in Hv1.
  exists (operator_new (heap w)), (operator_new (heap w1)),
    (open_world c2 w1), (open_log c1 ++ open_log c2).
  assert (Hne : operator_new (heap w) <> operator_new (heap w1)).
  { intros E. pose proof (operator_new_fresh (heap w1)) as Hf.
    rewrite <- E in Hf. unfold w1 in Hf.
    rewrite open_world_session in Hf. discriminate Hf. }
  split.
  { unfold reopen, bind at 1. rewrite (open_run c1 w Hv). fold w1.
    unfold bind at 1. by rewrite (open_run c2 w1 Hv1). }
  split; [exact Hne |]. split.
  { unfold open_world at 1. cbn. rewrite lookup_insert_ne by done.
    apply lookup_delete_eq. }
  split; [done |]. split.
  { unfold session. cbn. apply lookup_insert_eq. }
  intros k. split; [apply exec_ignores_handle |].
  destruct (exec_step (with_handle (Z.pos (operator_new (heap w))) k)
              (open_world c2 w1) (open_world_valid c2 w1))
    as (r & w' & l & -> & _). eauto.
Qed.

Lemma stale_handle_acts_on_current_witness :
  slot_valid (startup no_libraries) = true
  /\ exists a1 a2 w2 l,
       reopen cpu_config vulkan_config (startup no_libraries)
       = Some ((Z.pos a1, Z.pos a2), w2, l)
       /\ a1 <> a2
       /\ heap w2 !! a1 = None
       /\ g_state w2 = Some a2
       /\ session w2 = Some (opened vulkan_config)
       /\ forall k,
            exec (with_handle (Z.pos a1) k) w2 = exec (with_handle (Z.pos a2) k) w2
            /\ is_Some (exec (with_handle (Z.pos a1) k) w2).
Proof.
  split; [reflexivity |]. apply stale_handle_acts_on_current. reflexivity.
Defined.

(** ** Generation *)

(** C2. Two sessions opened with one configuration, fed one prompt and
    driven with one request yield the same tokens, step for step, whatever
    the worlds they were opened in and whatever addresses the allocators of
    the two runs hand out. *)
Theorem generation_deterministic (A1 A2 : Allocator) c prompt r n w1 w2 :
  slot_valid w1 = true -> slot_valid w2 = true ->
  exists tokens,
    value (@session_tokens A1 c prompt r n w1) = Some tokens
    /\ value (@session_tokens A2 c prompt r n w2) = Some tokens.
Proof.
  intros Hv1 Hv2. exists (replicate n None).
  split; by apply session_tokens_run.
Qed.

Lemma generation_deterministic_witness :
  slot_valid (startup no_libraries) = true
  /\ slot_valid stopped_world = true
  /\ exists tokens,
       value (session_tokens cpu_config (jstring_of "Hello world")
                sample_request 3 (startup no_libraries)) = Some tokens
       /\ value (session_tokens cpu_config (jstring_of "Hello world")
                   sample_request 3 stopped_world) = Some tokens.
Proof.
  split; [reflexivity |]. split; [reflexivity |].
  apply generation_deterministic; reflexivity.
Defined.

(** C5, as stated, fails: in the scenario run on a fresh process, the three
    generation steps after the prompt return null, and so does the step
    after the reset. *)
Lemma scenario_yields_no_token :
  value (scenario cpu_config (jstring_of "Hello world") sample_request
           (startup no_libraries))
  = Some (2, [None; None; None], None, None).
Proof. vm_compute. reflexivity. Qed.

(** C5, amended. In the scenario every generation step returns null: the
    three after the prompt and the one after the reset because the bridge
    produces no token, the one after the stop request because the stop flag
    is set, which is the only step that logs the stop.  The reset clears the
    flag, and the scenario ends in the world the opening left. *)
Theorem scenario_outcome `{Allocator} c prompt r w :
  slot_valid w = true ->
  exists h w1 l,
    open c w = Some (h, w1, l)
    /\ cancelRequested w1 = false
    /\ scenario c prompt r w
       = Some ((to_jint (strlen (GetStringUTFChars prompt) / 4),
                [None; None; None], None, None),
               w1,
               l ++
               [LOGD "Processing prompt: %.50s..."
                  [arg_str (GetStringUTFChars prompt)];
                LOGD "Prompt processed: %d tokens"
                  [arg_int (to_jint (strlen (GetStringUTFChars prompt) / 4))];
                LOGI "Generation stop requested" [];
                LOGD "Generation stopped by user" [];
                LOGI "Context reset" []]).
Proof.
  intros Hv. exists (Z.pos (operator_new (heap w))), (open_world c w), (open_log c).
  split; [by apply open_run |]. split; [| by apply scenario_run].
  unfold cancelRequested, session. cbn. by rewrite lookup_insert_eq.
Qed.

Lemma scenario_outcome_witness :
  slot_valid (startup no_libraries) = true
  /\ exists h w1 l,
       open cpu_config (startup no_libraries) = Some (h, w1, l)
       /\ cancelRequested w1 = false
       /\ scenario cpu_config (jstring_of "Hello world") sample_request
            (startup no_libraries)
          = Some ((to_jint (strlen (GetStringUTFChars (jstring_of "Hello world")) / 4),
                   [None; None; None], None, None),
                  w1,
                  l ++
                  [LOGD "Processing prompt: %.50s..."
                     [arg_str (GetStringUTFChars (jstring_of "Hello world"))];
                   LOGD "Prompt processed: %d tokens"
                     [arg_int (to_jint (strlen (GetStringUTFChars
                                                  (jstring_of "Hello world")) / 4))];
                   LOGI "Generation stop requested" [];
                   LOGD "Generation stopped by user" [];
                   LOGI "Context reset" []]).
Proof.
  split; [reflexivity |]. apply scenario_outcome. reflexivity.
Defined.

(** ** Invariants over sequences of calls *)

(** C9. Once the stop flag is set it stays set: any sequence of calls that
    contains no reset, no release and no opening runs to its end and leaves
    the flag set.  Prompts, generation steps, probes and further stop
    requests do not clear it. *)
Theorem stop_flag_persists `{Allocator} cs : forall w,
  cancelRequested w = true ->
  forallb keeps_session cs = true ->
  exists rs w' l, run cs w = Some (rs, w', l) /\ cancelRequested w' = true.
Proof.
  induction cs as [| k cs IH]; intros w Hc Hk.
  - cbn. unfold ret. eauto.
  - cbn in Hk. apply andb_prop in Hk as [Hk Hcs].
    destruct (exec_keeps_stop k w Hc Hk) as (r & w1 & l1 & Hr & Hc1).
    destruct (IH w1 Hc1 Hcs) as (rs & w2 & l2 & Hrs & Hc2).
    cbn [run]. unfold bind at 1. rewrite Hr. unfold bind at 1. rewrite Hrs.
    cbn. unfold ret. eauto.
Qed.

Lemma stop_flag_persists_witness :
  exists rs w' l,
    run [Generate 1 128 0x3F4CCCCD 0x3F733333 40 0x3F8CCCCD 42;
         Prompt 1 (jstring_of "Hello world");
         CheckVulkan;
         StopGeneration 1;
         Generate 1 128 0x3F4CCCCD 0x3F733333 40 0x3F8CCCCD 42]
      stopped_world = Some (rs, w', l)
    /\ cancelRequested w' = true.
Proof. apply stop_flag_persists; reflexivity. Defined.

(** C10. Between calls the generation flag is down.  From a world where it
    is down, and whose slot is null or holds a live object, every sequence of
    exported calls runs to its end and leaves it down; [nativeGenerate], the
    one function that raises it, lowers it again before it returns. *)
Theorem isGenerating_clear_between_calls `{Allocator} cs w :
  slot_valid w = true ->
  generating w = false ->
  exists rs w' l, run cs w = Some (rs, w', l) /\ generating w' = false.
Proof.
  intros Hv Hn.
  destruct (run_steps cs w Hv) as (rs & w' & l & Hr & _ & _ & Hn').
  exists rs, w', l. split; [exact Hr | exact (Hn' Hn)].
Qed.

Lemma isGenerating_clear_between_calls_witness :
  exists rs w' l,
    run [Init (jstring_of "/data/local/tmp/model") 0 0 4096 512 4 1 1;
         Prompt 1 (jstring_of "Hello world");
         Generate 1 128 0x3F4CCCCD 0x3F733333 40 0x3F8CCCCD 42;
         StopGeneration 1;
         Generate 1 128 0x3F4CCCCD 0x3F733333 40 0x3F8CCCCD 42;
         ResetContext 1;
         Release 1]
      (startup no_libraries) = Some (rs, w', l)
    /\ generating w' = false.
Proof. apply isGenerating_clear_between_calls; reflexivity. Defined.

(** * Further properties of the bridge *)

Section Effects.
Context `{Allocator}.

(** A property that every admitted call keeps is kept by every sequence of
    admitted calls, and the sequence runs to its end. *)
Lemma run_preserves (ok : call -> bool) (P : World -> Prop) :
  (forall k w, ok k = true -> P w ->
     exists r w' l, exec k w = Some (r, w', l) /\ P w') ->
  forall cs w, forallb ok cs = true -> P w ->
    exists rs w' l, run cs w = Some (rs, w', l) /\ P w'.
Proof.
  intros Hstep. induction cs as [| k cs IH]; intros w Hok HP.
  - cbn. unfold ret. eauto.
  - cbn in Hok. apply andb_prop in Hok as [Hk Hcs].
    destruct (Hstep k w Hk HP) as (r & w1 & l1 & Hr & HP1).
    destruct (IH w1 Hcs HP1) as (rs & w2 & l2 & Hrs & HP2).
    cbn [run]. unfold bind at 1. rewrite Hr. unfold bind at 1. rewrite Hrs.
    cbn. unfold ret. eauto.
Qed.

Lemma configuration_of_isGenerating b s :
  configuration_of (set_isGenerating b s) = configuration_of s.
Proof. reflexivity. Qed.

Lemma configuration_of_shouldStop b s :
  configuration_of (set_shouldStop b s) = configuration_of s.
Proof. reflexivity. Qed.

(** The four things a call can do to the world: nothing; rewrite the flags
    of the engine object in place; install a fresh, unloaded object after
    deleting the old one; delete the object and null the slot. *)
Lemma exec_effect k w :
  slot_valid w = true ->
  exists r w' l,
    exec k w = Some (r, w', l)
    /\ (w' = w
        \/ (exists p s s',
              g_state w = Some p /\ heap w !! p = Some s
              /\ w' = upd w p s'
              /\ configuration_of s' = configuration_of s)
        \/ (not_init k = false
            /\ exists s0,
                 chatModule s0 = None /\ pendingToken s0 = []
                 /\ w' = mkWorld (loadable w)
                           (<[operator_new (heap w) := s0]> (released_heap w))
                           (Some (operator_new (heap w))))
        \/ (keeps_slot k = false
            /\ exists p,
                 g_state w = Some p
                 /\ w' = mkWorld (loadable w) (delete p (heap w)) None)).
Proof.
  intros Hv.
  destruct k as [| | path be gl cs bs th fa kv | h pr | h mt te tp tk rp sd
                 | h | h | h]; unfold exec, bind at 1.
  - destruct (nativeCheckVulkan_run w) as [l ->]. cbn. eauto 10.
  - destruct (nativeCheckOpenCL_run w) as [l ->]. cbn. eauto 10.
  - rewrite (nativeInit_run _ _ _ _ _ _ _ _ _ Hv). cbn.
    do 3 eexists. split; [reflexivity |]. right. right. left.
    split; [done |]. eexists. split; [| split; [| reflexivity]]; done.
  - destruct (g_state w) as [p|] eqn:Hg.
    + rewrite (nativePrompt_open _ _ _ _ Hg). cbn. eauto 10.
    + rewrite (nativePrompt_closed _ _ _ Hg). cbn. eauto 10.
  - destruct (g_state w) as [p|] eqn:Hg.
    + destruct (slot_valid_live _ _ Hg Hv) as [s Hp].
      destruct (shouldStop s) eqn:Hs.
      * rewrite (nativeGenerate_stopped _ _ _ _ _ _ _ _ _ _ Hg Hp Hs). cbn.
        eauto 10.
      * rewrite (nativeGenerate_step _ _ _ _ _ _ _ _ _ _ Hg Hp Hs). cbn.
        do 3 eexists. split; [reflexivity |]. right. left.
        exists p, s, (set_isGenerating false s). done.
    + rewrite (nativeGenerate_closed _ _ _ _ _ _ _ _ Hg). cbn. eauto 10.
  - destruct (g_state w) as [p|] eqn:Hg.
    + destruct (slot_valid_live _ _ Hg Hv) as [s Hp].
      rewrite (nativeStopGeneration_open _ _ _ _ Hg Hp). cbn.
      do 3 eexists. split; [reflexivity |]. right. left.
      exists p, s, (set_shouldStop true s). done.
    + rewrite (nativeStopGeneration_closed _ _ Hg). cbn. eauto 10.
  - destruct (g_state w) as [p|] eqn:Hg.
    + destruct (slot_valid_live _ _ Hg Hv) as [s Hp].
      rewrite (nativeResetContext_open _ _ _ _ Hg Hp). cbn.
      do 3 eexists. split; [reflexivity |]. right. left.
      exists p, s, (set_shouldStop false s). done.
    + rewrite (nativeResetContext_closed _ _ Hg). cbn. eauto 10.
  - destruct (g_state w) as [p|] eqn:Hg.
    + destruct (slot_valid_live _ _ Hg Hv) as [s Hp].
      rewrite (nativeRelease_open _ _ _ _ Hg Hp). cbn.
      do 3 eexists. split; [reflexivity |]. right. right. right.
      split; [done |]. exists p. done.
    + rewrite (nativeRelease_closed _ _ Hg). cbn. eauto 10.
Qed.

Lemma keeps_slot_not_init k : keeps_slot k = true -> not_init k = true.
Proof. by destruct k. Qed.

Lemma slot_valid_closed w : g_state w = None -> slot_valid w = true.
Proof. unfold slot_valid. by intros ->. Qed.

End Effects.

(** ** Capability probes *)

(** X1. Probing has no effect on the bridge: any sequence of Vulkan and
    OpenCL probes, run on any world, returns and leaves the world, and with
    it the session, exactly as it found it. *)
Theorem probes_change_nothing `{Allocator} cs w :
  forallb is_probe cs = true ->
  exists rs l, run cs w = Some (rs, w, l) /\ length rs = length cs.
Proof.
  induction cs as [| k cs IH]; intros Hk.
  - exists [], []. done.
  - cbn in Hk. apply andb_prop in Hk as [Hk Hcs].
    destruct (IH Hcs) as (rs & l & Hrs & Hlen).
    assert (exists r l1, exec k w = Some (r, w, l1)) as (r & l1 & Hr).
    { destruct k; try discriminate Hk; unfold exec, bind.
      - destruct (nativeCheckVulkan_run w) as [l1 ->]. cbn. eauto.
      - destruct (nativeCheckOpenCL_run w) as [l1 ->]. cbn. eauto. }
    exists (r :: rs), (l1 ++ l ++ []).
    cbn [run]. unfold bind at 1. rewrite Hr. unfold bind at 1. rewrite Hrs.
    cbn. by rewrite Hlen.
Qed.

Lemma probes_change_nothing_witness :
  exists rs l,
    run [CheckVulkan; CheckOpenCL; CheckVulkan] stopped_world
    = Some (rs, stopped_world, l)
    /\ length rs = length [CheckVulkan; CheckOpenCL; CheckVulkan].
Proof. apply probes_change_nothing. reflexivity. Defined.

(** X2. The OpenCL probe answers yes exactly when the system loader or the
    vendor loader can be loaded.  The vendor path is a fallback: when the
    system loader is there the probe reports plain availability, whatever
    the vendor directory holds, and the vendor path is named in the log only
    when it was the one that worked. *)
Theorem nativeCheckOpenCL_fallback w :
  exists b l,
    nativeCheckOpenCL w = Some (b, w, l)
    /\ (b = true <->
        loadable w "libOpenCL.so" = true
        \/ loadable w "/system/vendor/lib64/libOpenCL.so" = true)
    /\ (loadable w "libOpenCL.so" = true ->
        l = [LOGI "OpenCL is available" []])
    /\ (l = [LOGI "OpenCL is available (vendor path)" []] <->
        loadable w "libOpenCL.so" = false
        /\ loadable w "/system/vendor/lib64/libOpenCL.so" = true).
Proof.
  unfold nativeCheckOpenCL, probe, log, bind, ret.
  destruct (loadable w "libOpenCL.so") eqn:E1; cbn.
  - do 2 eexists. split; [reflexivity |].
    split; [tauto |]. split; [done |]. split; [discriminate | intros [? _]; done].
  - destruct (loadable w "/system/vendor/lib64/libOpenCL.so") eqn:E2; cbn.
    + do 2 eexists. split; [reflexivity |]. split; [tauto |].
      split; [discriminate |]. done.
    + do 2 eexists. split; [reflexivity |].
      split; [split; [discriminate | intros [?|?]; discriminate] |].
      split; [discriminate |]. split; [discriminate | intros [_ ?]; done].
Qed.

(** ** The bridge before an opening and after a release *)

(** X3. While no session is open, nothing but an opening has any effect:
    any sequence of probes, prompts, generation steps, stop requests, resets
    and releases runs to its end and leaves the world as it was. *)
Theorem closed_bridge_inert `{Allocator} cs w :
  g_state w = None ->
  forallb not_init cs = true ->
  exists rs l, run cs w = Some (rs, w, l).
Proof.
  intros Hg Hcs.
  destruct (run_preserves not_init (fun w' => w' = w)) with (cs := cs) (w := w)
    as (rs & w' & l & Hr & ->); [| done | done | eauto].
  intros k w0 Hk ->.
  destruct (exec_effect k w (slot_valid_closed w Hg))
    as (r & w' & l & Hr & [-> | [(p & s & s' & Hp & _) | [[Hi _] | (_ & p & Hp & _)]]]);
    [eauto | congruence | congruence | congruence].
Qed.

Lemma closed_bridge_inert_witness :
  exists rs l,
    run [Prompt 7 (jstring_of "Hello world");
         Generate 7 128 0x3F4CCCCD 0x3F733333 40 0x3F8CCCCD 42;
         StopGeneration 7; ResetContext 7; Release 7; CheckOpenCL]
      (startup no_libraries)
    = Some (rs, startup no_libraries, l).
Proof. apply closed_bridge_inert; reflexivity. Defined.

(** X4. A session keeps its configuration.  Over any sequence of calls that
    contains neither an opening nor a release, the slot keeps its address,
    the engine object keeps its chat module pointer, its seven configuration
    fields and its token buffer (only the two generation flags can move),
    and no other object of the heap is touched. *)
Theorem configuration_immutable `{Allocator} cs w p s :
  g_state w = Some p ->
  heap w !! p = Some s ->
  forallb keeps_slot cs = true ->
  exists rs w' l s',
    run cs w = Some (rs, w', l)
    /\ g_state w' = Some p
    /\ heap w' !! p = Some s'
    /\ configuration_of s' = configuration_of s
    /\ forall q, q <> p -> heap w' !! q = heap w !! q.
Proof.
  intros Hg Hp Hcs.
  set (P := fun w' : World =>
              g_state w' = Some p
              /\ (exists s', heap w' !! p = Some s'
                             /\ configuration_of s' = configuration_of s)
              /\ forall q, q <> p -> heap w' !! q = heap w !! q).
  destruct (run_preserves keeps_slot P) with (cs := cs) (w := w)
    as (rs & w' & l & Hr & Hg' & (s' & Hp' & Hc') & Hq'); [| done | | by eauto 10].
  - intros k w0 Hk (Hg0 & (s0 & Hp0 & Hc0) & Hq0).
    assert (Hv0 : slot_valid w0 = true).
    { unfold slot_valid. by rewrite Hg0, Hp0. }
    destruct (exec_effect k w0 Hv0)
      as (r & w' & l & Hr
          & [-> | [(p1 & s1 & s1' & Hg1 & Hp1 & -> & Hc1) | [[Hi _] | [Hi _]]]]).
    + exists r, w0, l. split; [done |]. unfold P. eauto.
    + assert (p1 = p) as -> by congruence.
      assert (s1 = s0) as -> by congruence.
      exists r, (upd w0 p s1'), l. split; [done |]. split; [done |].
      split.
      * exists s1'. split; [apply heap_upd | congruence].
      * intros q Hq. unfold upd. cbn. rewrite lookup_insert_ne by done.
        by apply Hq0.
    + apply keeps_slot_not_init in Hk. congruence.
    + congruence.
  - unfold P. split; [done |]. split; [eauto | done].
Qed.

Lemma configuration_immutable_witness :
  exists rs w' l s',
    run [StopGeneration 1;
         Generate 1 128 0x3F4CCCCD 0x3F733333 40 0x3F8CCCCD 42;
         ResetContext 1;
         Prompt 1 (jstring_of "Hello world");
         Generate 1 128 0x3F4CCCCD 0x3F733333 40 0x3F8CCCCD 42]
      idle_world = Some (rs, w', l)
    /\ g_state w' = Some 1%positive
    /\ heap w' !! 1%positive = Some s'
    /\ configuration_of s' = configuration_of MlcLlmState_default
    /\ forall q, q <> 1%positive -> heap w' !! q = heap idle_world !! q.
Proof. apply configuration_immutable; reflexivity. Defined.

(** X5. The slot owns the heap.  From a world where the heap holds the
    object of the slot and nothing else, every sequence of calls runs to its
    end and ends in such a world: a superseding opening and a release free
    the old object, nothing is leaked and the slot never dangles. *)
Theorem slot_owns_heap `{Allocator} cs w :
  owned w ->
  exists rs w' l, run cs w = Some (rs, w', l) /\ owned w'.
Proof.
  intros Ho.
  destruct (run_steps cs w (owned_slot_valid w Ho))
    as (rs & w' & l & Hr & _ & Ho' & _).
  exists rs, w', l. split; [exact Hr | exact (Ho' Ho)].
Qed.

Lemma slot_owns_heap_witness :
  exists rs w' l,
    run [Init (jstring_of "/data/local/tmp/model") 0 0 4096 512 4 1 1;
         Init (jstring_of "/data/local/tmp/other") 1 32 8192 512 8 0 2;
         StopGeneration 1;
         Release 1;
         Init (jstring_of "/data/local/tmp/model") 0 0 4096 512 4 1 1]
      (startup no_libraries) = Some (rs, w', l)
    /\ owned w'.
Proof. apply slot_owns_heap. reflexivity. Defined.

(** ** Stop and reset *)

(** X6. A stop request is idempotent: the first sets the stop flag of the
    session, if there is one, and a second one leaves the world as the first
    left it.  Without a session the request does nothing at all. *)
Theorem nativeStopGeneration_idempotent h1 h2 w :
  slot_valid w = true ->
  exists w' l l',
    nativeStopGeneration h1 w = Some (tt, w', l)
    /\ nativeStopGeneration h2 w' = Some (tt, w', l')
    /\ (g_state w <> None -> cancelRequested w' = true)
    /\ (g_state w = None -> w' = w /\ l = []).
Proof.
  intros Hv. destruct (g_state w) as [p|] eqn:Hg.
  - destruct (slot_valid_live _ _ Hg Hv) as [s Hp].
    exists (upd w p (set_shouldStop true s)).
    rewrite (nativeStopGeneration_open _ _ _ _ Hg Hp).
    rewrite (nativeStopGeneration_open h2 (upd w p (set_shouldStop true s)) p
               (set_shouldStop true s) Hg (heap_upd _ _ _)).
    rewrite upd_upd. do 2 eexists. split; [reflexivity |].
    split; [reflexivity |]. split; [| done].
    intros _. unfold cancelRequested. by rewrite (session_upd _ _ _ Hg).
  - exists w, [], []. rewrite (nativeStopGeneration_closed h1 w Hg).
    rewrite (nativeStopGeneration_closed h2 w Hg). done.
Qed.

Lemma nativeStopGeneration_idempotent_witness :
  exists w' l l',
    nativeStopGeneration 1 idle_world = Some (tt, w', l)
    /\ nativeStopGeneration 1 w' = Some (tt, w', l')
    /\ (g_state idle_world <> None -> cancelRequested w' = true)
    /\ (g_state idle_world = None -> w' = idle_world /\ l = []).
Proof. apply nativeStopGeneration_idempotent. reflexivity. Defined.

(** X7. A reset undoes a stop request: when the stop flag is clear, a stop
    request followed by a reset leaves the world exactly as it was before
    the request. *)
Theorem stop_then_reset_restores h1 h2 w :
  slot_valid w = true ->
  cancelRequested w = false ->
  exists l,
    (nativeStopGeneration h1 ;; nativeResetContext h2) w = Some (tt, w, l).
Proof.
  intros Hv Hc. unfold bind. destruct (g_state w) as [p|] eqn:Hg.
  - destruct (slot_valid_live _ _ Hg Hv) as [s Hp].
    assert (Hs : shouldStop s = false).
    { unfold cancelRequested, session in Hc. by rewrite Hg, Hp in Hc. }
    rewrite (nativeStopGeneration_open _ _ _ _ Hg Hp).
    rewrite (nativeResetContext_open h2 (upd w p (set_shouldStop true s)) p
               (set_shouldStop true s) Hg (heap_upd _ _ _)).
    rewrite upd_upd, (set_shouldStop_undo s Hs), (upd_same _ _ _ Hp). eauto.
  - rewrite (nativeStopGeneration_closed h1 w Hg).
    rewrite (nativeResetContext_closed h2 w Hg). eauto.
Qed.

Lemma stop_then_reset_restores_witness :
  exists l,
    (nativeStopGeneration 1 ;; nativeResetContext 1) idle_world
    = Some (tt, idle_world, l).
Proof. apply stop_then_reset_restores; reflexivity. Defined.

(** X8. A reset always reopens the generation path: whatever the flags of
    the session were, after [nativeResetContext] the stop flag is clear, and
    the next [nativeGenerate] goes past the cancellation exit (it logs
    nothing) and returns with both flags clear. *)
Theorem reset_reopens_generation h h' mt te tp tk rp sd w :
  slot_valid w = true ->
  g_state w <> None ->
  exists w1 l1 w2,
    nativeResetContext h w = Some (tt, w1, l1)
    /\ cancelRequested w1 = false
    /\ nativeGenerate h' mt te tp tk rp sd w1 = Some (None, w2, [])
    /\ cancelRequested w2 = false
    /\ generating w2 = false.
Proof.
  intros Hv Hn. destruct (g_state w) as [p|] eqn:Hg; [| done].
  destruct (slot_valid_live _ _ Hg Hv) as [s Hp].
  set (w1 := upd w p (set_shouldStop false s)).
  assert (Hg1 : g_state w1 = Some p) by done.
  exists w1, [LOGI "Context reset" []],
    (upd w1 p (set_isGenerating false (set_shouldStop false s))).
  split; [by apply nativeResetContext_open |].
  split; [unfold cancelRequested, w1; by rewrite (session_upd _ _ _ Hg) |].
  split; [by apply nativeGenerate_step; [| apply heap_upd |] |].
  unfold cancelRequested, generating. by rewrite (session_upd _ _ _ Hg1).
Qed.

Lemma reset_reopens_generation_witness :
  exists w1 l1 w2,
    nativeResetContext 1 stopped_world = Some (tt, w1, l1)
    /\ cancelRequested w1 = false
    /\ nativeGenerate 1 128 0x3F4CCCCD 0x3F733333 40 0x3F8CCCCD 42 w1
       = Some (None, w2, [])
    /\ cancelRequested w2 = false
    /\ generating w2 = false.
Proof. apply reset_reopens_generation; [reflexivity | discriminate]. Defined.

(** ** Generation *)

Lemma nativeGenerate_any handle mt te tp tk rp sd w :
  slot_valid w = true ->
  exists w' l,
    nativeGenerate handle mt te tp tk rp sd w = Some (None, w', l)
    /\ slot_valid w' = true
    /\ g_state w' = g_state w
    /\ cancelRequested w' = cancelRequested w.
Proof.
  intros Hv. destruct (g_state w) as [p|] eqn:Hg.
  - destruct (slot_valid_live _ _ Hg Hv) as [s Hp].
    destruct (shouldStop s) eqn:Hs.
    + rewrite (nativeGenerate_stopped _ _ _ _ _ _ _ _ _ _ Hg Hp Hs).
      do 2 eexists. split; [reflexivity |]. by rewrite Hg.
    + rewrite (nativeGenerate_step _ _ _ _ _ _ _ _ _ _ Hg Hp Hs).
      do 2 eexists. split; [reflexivity |].
      split; [by apply slot_valid_upd |]. split; [done |].
      unfold cancelRequested. rewrite (session_upd _ _ _ Hg).
      unfold session. by rewrite Hg, Hp.
  - rewrite (nativeGenerate_closed _ _ _ _ _ _ _ _ Hg).
    do 2 eexists. split; [reflexivity |]. by rewrite Hg.
Qed.

(** X9. The bridge never produces a token.  Any number of generation steps,
    in any world whose slot is null or live (session or none, stopped or
    not, whatever the request), all return null; they move neither the slot
    nor the stop flag. *)
Theorem generate_calls_all_null n handle mt te tp tk rp sd : forall w,
  slot_valid w = true ->
  exists w' l,
    generate_calls n handle mt te tp tk rp sd w = Some (replicate n None, w', l)
    /\ g_state w' = g_state w
    /\ cancelRequested w' = cancelRequested w.
Proof.
  induction n as [| n IH]; intros w Hv.
  - exists w, []. done.
  - destruct (nativeGenerate_any handle mt te tp tk rp sd w Hv)
      as (w1 & l1 & Hr & Hv1 & Hg1 & Hc1).
    destruct (IH w1 Hv1) as (w2 & l2 & Hrs & Hg2 & Hc2).
    cbn [generate_calls]. unfold bind at 1. rewrite Hr.
    unfold bind at 1. rewrite Hrs. cbn.
    do 2 eexists. split; [reflexivity |]. split; congruence.
Qed.

Lemma generate_calls_all_null_witness :
  exists w' l,
    generate_calls 5 1 128 0x3F4CCCCD 0x3F733333 40 0x3F8CCCCD 42 idle_world
    = Some (replicate 5 None, w', l)
    /\ g_state w' = g_state idle_world
    /\ cancelRequested w' = cancelRequested idle_world.
Proof. apply generate_calls_all_null. reflexivity. Defined.

(** ** Token counts *)

(** X10. The error value of [nativePrompt] cannot be mistaken for a count:
    for a prompt of at most 2^31-1 code units, the call returns -1 exactly
    when no session is open. *)
Theorem nativePrompt_error_iff handle prompt w :
  Z.of_nat (length prompt) <= 2 ^ 31 - 1 ->
  value (nativePrompt handle prompt w) = Some (-1) <-> g_state w = None.
Proof.
  intros Hlen. destruct (g_state w) as [p|] eqn:Hg.
  - rewrite (nativePrompt_open _ _ _ _ Hg). cbn.
    destruct (tokenCount_bounds prompt Hlen) as [-> Hb].
    split; [intros [= E]; lia | discriminate].
  - by rewrite (nativePrompt_closed _ _ _ Hg).
Qed.

Lemma nativePrompt_error_iff_witness :
  value (nativePrompt 1 (jstring_of "Hi") (startup no_libraries)) = Some (-1)
  <-> g_state (startup no_libraries) = None.
Proof. apply nativePrompt_error_iff. vm_compute. discriminate. Defined.

Lemma ascii_encoding s :
  Forall (fun c => 1 <= c <= 0x7F) s -> concat (map utf8_unit s) = s.
Proof.
  induction 1 as [| c s Hc _ IH]; [done |]. cbn. rewrite IH.
  unfold utf8_unit.
  destruct (Z.eqb_spec c 0); [lia |]. destruct (Z.leb_spec c 0x7F); [done | lia].
Qed.

(** X11. For a prompt of ASCII characters (code units 1 to 127) the count
    is a quarter of the number of characters, rounded down: four characters
    to the token. *)
Theorem nativePrompt_ascii handle prompt w :
  g_state w <> None ->
  Forall (fun c => 1 <= c <= 0x7F) prompt ->
  Z.of_nat (length prompt) <= 2 ^ 31 - 1 ->
  value (nativePrompt handle prompt w) = Some (Z.of_nat (length prompt) / 4).
Proof.
  intros Hg Hascii Hlen. destruct (g_state w) as [p|] eqn:Hp; [| done].
  rewrite (nativePrompt_open _ _ _ _ Hp). cbn.
  destruct (tokenCount_bounds prompt Hlen) as [-> _].
  by rewrite strlen_GetStringUTFChars, ascii_encoding.
Qed.

Lemma nativePrompt_ascii_witness :
  value (nativePrompt 1 (jstring_of "Hello world") idle_world)
  = Some (Z.of_nat (length (jstring_of "Hello world")) / 4).
Proof.
  apply nativePrompt_ascii.
  - simpl. discriminate.
  - repeat constructor; vm_compute; discriminate.
  - vm_compute. discriminate.
Defined.

(** X12. A longer prompt never counts for less: with a session open, the
    count of a prompt extended by any text is at least the count of the
    prompt itself. *)
Theorem nativePrompt_monotone handle prompt more w :
  g_state w <> None ->
  Z.of_nat (length (prompt ++ more)) <= 2 ^ 31 - 1 ->
  exists n m,
    value (nativePrompt handle prompt w) = Some n
    /\ value (nativePrompt handle (prompt ++ more) w) = Some m
    /\ 0 <= n <= m.
Proof.
  intros Hg Hlen. destruct (g_state w) as [p|] eqn:Hp; [| done].
  assert (Hlen1 : Z.of_nat (length prompt) <= 2 ^ 31 - 1).
  { rewrite length_app in Hlen. lia. }
  rewrite !(nativePrompt_open _ _ _ _ Hp). cbn.
  destruct (tokenCount_bounds prompt Hlen1) as [-> Hb1].
  destruct (tokenCount_bounds (prompt ++ more) Hlen) as [-> _].
  do 2 eexists. split; [reflexivity |]. split; [reflexivity |].
  split; [lia |]. apply Z.div_le_mono; [lia |].
  rewrite !strlen_GetStringUTFChars, map_app, concat_app, length_app. lia.
Qed.

Lemma nativePrompt_monotone_witness :
  exists n m,
    value (nativePrompt 1 (jstring_of "Hello") idle_world) = Some n
    /\ value (nativePrompt 1 (jstring_of "Hello" ++ jstring_of " world") idle_world)
       = Some m
    /\ 0 <= n <= m.
Proof.
  apply nativePrompt_monotone.
  - simpl. discriminate.
  - vm_compute. discriminate.
Defined.

(** ** What the bridge never attaches *)

(** X13. No call loads a model or buffers a token: from a world whose
    session, if any, has a null chat module and an empty token buffer (the
    startup world is one), every sequence of calls runs to its end and ends
    in such a world. *)
Theorem never_loads_a_model `{Allocator} cs w :
  slot_valid w = true ->
  unloaded w = true ->
  exists rs w' l, run cs w = Some (rs, w', l) /\ unloaded w' = true.
Proof.
  intros Hv Hu.
  destruct (run_preserves (fun _ => true)
              (fun w' => slot_valid w' = true /\ unloaded w' = true))
    with (cs := cs) (w := w) as (rs & w' & l & Hr & _ & Hu');
    [| by induction cs | done | by eauto].
  clear. intros k w _ [Hv Hu].
  destruct (exec_effect k w Hv)
    as (r & w' & l & Hr
        & [-> | [(p & s & s' & Hg & Hp & -> & Hc)
                | [(_ & s0 & Hm & Ht & ->) | (_ & p & Hg & ->)]]]);
    exists r; do 2 eexists; (split; [exact Hr |]).
  - done.
  - split; [by apply slot_valid_upd |].
    unfold unloaded in *. rewrite (session_upd _ _ _ Hg).
    unfold session in Hu. rewrite Hg, Hp in Hu.
    assert (chatModule s' = chatModule s) as ->
      by exact (f_equal chatModule Hc).
    assert (pendingToken s' = pendingToken s) as ->
      by exact (f_equal pendingToken Hc).
    exact Hu.
  - split.
    + unfold slot_valid. cbn. by rewrite lookup_insert_eq.
    + unfold unloaded, session. cbn. by rewrite lookup_insert_eq, Hm, Ht.
  - done.
Qed.

Lemma never_loads_a_model_witness :
  exists rs w' l,
    run [Init (jstring_of "/data/local/tmp/model") 1 32 4096 512 4 1 1;
         Prompt 1 (jstring_of "Hello world");
         Generate 1 128 0x3F4CCCCD 0x3F733333 40 0x3F8CCCCD 42;
         ResetContext 1]
      (startup no_libraries) = Some (rs, w', l)
    /\ unloaded w' = true.
Proof. apply never_loads_a_model; reflexivity. Defined.

(** ** After a release *)

(** X14. A released bridge answers like one that was never opened: after
    [nativeRelease] the slot is null, a prompt is refused with -1 and a
    generation step returns null, each with the error line in the log and
    without touching the world; nothing of the freed object is read. *)
Theorem use_after_release h h' prompt mt te tp tk rp sd w :
  slot_valid w = true ->
  exists w' l,
    nativeRelease h w = Some (tt, w', l)
    /\ g_state w' = None
    /\ nativePrompt h' prompt w'
       = Some (-1, w', [LOGE "Engine not initialized" []])
    /\ nativeGenerate h' mt te tp tk rp sd w'
       = Some (None, w', [LOGE "Engine not initialized" []]).
Proof.
  intros Hv. destruct (g_state w) as [p|] eqn:Hg.
  - destruct (slot_valid_live _ _ Hg Hv) as [s Hp].
    rewrite (nativeRelease_open _ _ _ _ Hg Hp).
    do 2 eexists. split; [reflexivity |]. split; [done |].
    split; [by apply nativePrompt_closed | by apply nativeGenerate_closed].
  - rewrite (nativeRelease_closed _ _ Hg).
    do 2 eexists. split; [reflexivity |]. split; [done |].
    split; [by apply nativePrompt_closed | by apply nativeGenerate_closed].
Qed.

Lemma use_after_release_witness :
  exists w' l,
    nativeRelease 1 idle_world = Some (tt, w', l)
    /\ g_state w' = None
    /\ nativePrompt 1 (jstring_of "Hello world") w'
       = Some (-1, w', [LOGE "Engine not initialized" []])
    /\ nativeGenerate 1 128 0x3F4CCCCD 0x3F733333 40 0x3F8CCCCD 42 w'
       = Some (None, w', [LOGE "Engine not initialized" []]).
Proof. apply use_after_release. reflexivity. Defined.
